(** * OutputManager: a shallow embedding of [src/OutputManager.h]

    The class [OutputManager<OutType, StringType>] wraps a reference to an
    output stream and offers print operations on top of [operator<<].  The
    development has these layers:

    - [Text], [Num]: strings and the integer types of the header;
    - [Value]: the three element types of the header's own examples ([int],
      [double], [std::wstring]) and the text of a number;
    - [Stream]: the part of [std::basic_ostream] the header drives: the
      characters written, the field width that [std::setw] arms for the next
      insertion, the fill character, [adjustfield], [floatfield] and the
      precision, with formatted insertion of a value;
    - [Iter]: forward iterators as positions in a sequence;
    - [OM]: the class itself, member by member, over a store of streams.

    The stream is taken in a good state (every insertion succeeds), in the
    classic locale, decimal base, without [showpos], [showpoint] or
    [hexfloat]. *)

From Stdlib Require Import ZArith NArith List Bool Ascii String Lia.
From Stdlib Require Import DecimalString.
Import ListNotations.

Local Open Scope string_scope.
Local Open Scope Z_scope.

(* ------------------------------------------------------------------ *)
(** ** Text *)

Module Text.

Fixpoint replicate (c : ascii) (n : nat) : string :=
  match n with
  | O => EmptyString
  | S k => String c (replicate c k)
  end.

(** Concatenation of a list of pieces, in order. *)
Fixpoint cat (l : list string) : string :=
  match l with
  | [] => EmptyString
  | s :: r => s ++ cat r
  end.

(** [contains t s]: [t] occurs inside [s]. *)
Definition contains (t s : string) : Prop :=
  exists pre post, s = pre ++ t ++ post.

Definition len (s : string) : Z := Z.of_nat (String.length s).

End Text.

(* ------------------------------------------------------------------ *)
(** ** Integer types of the header *)

Module Num.

(** [size_t]: an unsigned machine integer.  The header never computes with a
    [size_t]; it hands one to [std::setw] or [std::setprecision], which take
    an [int], or to [std::advance], so the value is kept as a natural number
    and the conversion to [int] does the wrapping. *)
Definition size_t := N.

Definition INT_MAX : Z := 2147483647.
Definition INT_MIN : Z := -2147483648.

(** Conversion of an integer to [int]: the unique value congruent to the
    source modulo 2^32 (what [std::setw(Width__)] and
    [std::setprecision(Precision)] do with a [size_t] argument, their
    parameter being an [int]). *)
Definition to_int (z : Z) : Z := (z + 2147483648) mod 4294967296 - 2147483648.

Definition int_of_size_t (n : size_t) : Z := to_int (Z.of_N n).

End Num.

(* ------------------------------------------------------------------ *)
(** ** Printable values *)

Module Value.

(** A finite floating-point value, kept exactly: [(-1)^neg * mant * 10^exp10].
    Every finite [double] is such a number; infinities and NaN are not
    represented. *)
Record decimal := Decimal { neg : bool; mant : N; exp10 : Z }.

(** The element types of the header's examples: [std::vector<int>],
    [std::vector<double>], [std::vector<std::wstring>]. *)
Inductive value :=
| VInt (z : Z)
| VFloat (d : decimal)
| VStr (s : string).

Definition digits (n : Z) : string :=
  NilZero.string_of_uint (N.to_uint (Z.to_N n)).

Definition ndigits (n : Z) : Z := Text.len (digits n).

Definition lpad0 (k : Z) (s : string) : string :=
  Text.replicate "0"%char (Z.to_nat (k - Text.len s)) ++ s.

(** Division rounded to nearest, ties to even ([b > 0], [a >= 0]). *)
Definition round_div (a b : Z) : Z :=
  let q := a / b in
  let r := a mod b in
  if 2 * r <? b then q
  else if b <? 2 * r then q + 1
  else if Z.even q then q else q + 1.

(** [scaled m e p] is [m * 10^e * 10^p] rounded to an integer. *)
Definition scaled (m e p : Z) : Z :=
  let k := e + p in
  if 0 <=? k then m * 10 ^ k else round_div m (10 ^ (- k)).

(** Text of a number before padding: integer digits, fraction digits and an
    exponent suffix. *)
Record numtext := NumText { int_part : string; frac_part : string; suffix : string }.

Fixpoint strip_zeros (s : string) : string :=
  match s with
  | EmptyString => EmptyString
  | String c r =>
      match strip_zeros r with
      | EmptyString => if Ascii.eqb c "0"%char then EmptyString else String c EmptyString
      | r' => String c r'
      end
  end.

Definition assemble (strip : bool) (t : numtext) : string :=
  let f := if strip then strip_zeros (frac_part t) else frac_part t in
  int_part t ++
  match f with EmptyString => EmptyString | _ => "." ++ f end ++
  suffix t.

(** [%.pf] *)
Definition conv_fixed (m e p : Z) : numtext :=
  let ds := lpad0 (p + 1) (digits (scaled m e p)) in
  let n := String.length ds in
  let k := Z.to_nat p in
  NumText (substring 0 (n - k) ds) (substring (n - k) k ds) "".

(** Decimal exponent chosen by [%.pe]. *)
Definition sci_parts (m e p : Z) : Z * Z :=
  let x0 := if m =? 0 then 0 else e + ndigits m - 1 in
  let q0 := scaled m e (p - x0) in
  if 10 ^ (p + 1) <=? q0 then (x0 + 1, q0 / 10) else (x0, q0).

(** [%.pe] *)
Definition conv_sci (m e p : Z) : numtext :=
  let '(x, q) := sci_parts m e p in
  let ds := lpad0 (p + 1) (digits q) in
  NumText (substring 0 1 ds) (substring 1 (Z.to_nat p) ds)
          ("e" ++ (if x <? 0 then "-" else "+") ++ lpad0 2 (digits (Z.abs x))).

(** [%.pg]: precision 0 counts as 1; the style follows the exponent; trailing
    zeros of the fraction are removed. *)
Definition conv_general (m e p : Z) : string :=
  let p' := if p =? 0 then 1 else p in
  let x := fst (sci_parts m e (p' - 1)) in
  if (-4 <=? x) && (x <? p')
  then assemble true (conv_fixed m e (p' - 1 - x))
  else assemble true (conv_sci m e (p' - 1)).

End Value.

(* ------------------------------------------------------------------ *)
(** ** The output stream *)

Module Stream.
Import Value.

(** [ios_base::adjustfield]: unset on a fresh stream, then one of the three
    flags. *)
Inductive adjust := adj_unset | adj_left | adj_right | adj_internal.

(** [ios_base::floatfield]: unset (the default notation), [fixed] or
    [scientific]. *)
Inductive floatfmt := float_default | float_fixed | float_scientific.

Record ostream := OStream {
  buffer : string;          (* the characters written so far *)
  width : Z;                (* [width()]: armed by [setw], consumed by the next insertion *)
  fill : ascii;             (* [fill()] *)
  adjustfield : adjust;
  floatfield : floatfmt;
  precision : Z             (* [precision()] *)
}.

(** A stream as [std::basic_ios::init] leaves it. *)
Definition fresh : ostream :=
  OStream "" 0 " "%char adj_unset float_default 6.

Definition with_buffer (b : string) (os : ostream) : ostream :=
  OStream b (width os) (fill os) (adjustfield os) (floatfield os) (precision os).
Definition with_width (w : Z) (os : ostream) : ostream :=
  OStream (buffer os) w (fill os) (adjustfield os) (floatfield os) (precision os).
Definition with_adjust (a : adjust) (os : ostream) : ostream :=
  OStream (buffer os) (width os) (fill os) a (floatfield os) (precision os).
Definition with_float (f : floatfmt) (os : ostream) : ostream :=
  OStream (buffer os) (width os) (fill os) (adjustfield os) f (precision os).
Definition with_precision (p : Z) (os : ostream) : ostream :=
  OStream (buffer os) (width os) (fill os) (adjustfield os) (floatfield os) p.

(** *** Manipulators *)

Definition setw (n : Z) : ostream -> ostream := with_width n.
Definition setprecision (n : Z) : ostream -> ostream := with_precision n.
Definition left : ostream -> ostream := with_adjust adj_left.
Definition right : ostream -> ostream := with_adjust adj_right.
Definition internal : ostream -> ostream := with_adjust adj_internal.
Definition fixed : ostream -> ostream := with_float float_fixed.
Definition scientific : ostream -> ostream := with_float float_scientific.

(** [unsetf(fixed)] then [unsetf(scientific)]: no floatfield bit is left. *)
Definition unsetf_floatfield : ostream -> ostream := with_float float_default.

(** *** Text of a value under the stream's flags *)

(** A negative precision is replaced by 6. *)
Definition float_precision (os : ostream) : Z :=
  if precision os <? 0 then 6 else precision os.

Definition float_body (os : ostream) (d : decimal) : string :=
  let m := Z.of_N (mant d) in
  let p := float_precision os in
  match floatfield os with
  | float_fixed => assemble false (conv_fixed m (exp10 d) p)
  | float_scientific => assemble false (conv_sci m (exp10 d) p)
  | float_default => conv_general m (exp10 d) p
  end.

(** Sign and body of a value's text; a string has no sign. *)
Definition render (os : ostream) (v : value) : string * string :=
  match v with
  | VInt z => (if z <? 0 then "-" else "", digits (Z.abs z))
  | VFloat d => (if neg d then "-" else "", float_body os d)
  | VStr s => ("", s)
  end.

(** The unpadded text of a value. *)
Definition text (os : ostream) (v : value) : string :=
  fst (render os v) ++ snd (render os v).

(** *** Padding to a field width *)

(** [w] is a minimum: nothing is added when the text is at least [w] long (or
    [w] is negative).  [left] pads after the text, [internal] between sign
    and body, anything else before the text. *)
Definition pad (c : ascii) (a : adjust) (w : Z) (sign body : string) : string :=
  let f := Text.replicate c (Z.to_nat (w - Text.len (sign ++ body))) in
  match a with
  | adj_left => sign ++ body ++ f
  | adj_internal => sign ++ f ++ body
  | _ => f ++ sign ++ body
  end.

(** The field a value occupies when written with minimum width [w] under
    the fill and alignment of [os]. *)
Definition field (os : ostream) (w : Z) (v : value) : string :=
  pad (fill os) (adjustfield os) w (fst (render os v)) (snd (render os v)).

Definition field_string (os : ostream) (w : Z) (s : string) : string :=
  pad (fill os) (adjustfield os) w "" s.

(** *** Formatted insertion: pad to [width()], write, then [width(0)] *)

Definition emit (t : string) (os : ostream) : ostream :=
  with_width 0 (with_buffer (buffer os ++ t) os).

(** [os << v] *)
Definition put (v : value) (os : ostream) : ostream :=
  emit (field os (width os) v) os.

(** [os << s] for a string member ([Separator__], [EndOfLine__]). *)
Definition put_string (s : string) (os : ostream) : ostream :=
  emit (field_string os (width os) s) os.

(** Pieces written one after the other, each by an insertion. *)
Definition emit_lines (ls : list string) (os : ostream) : ostream :=
  fold_left (fun o l => emit l o) ls os.

(** What an operation appended to the stream. *)
Definition wrote (os os' : ostream) (t : string) : Prop :=
  buffer os' = buffer os ++ t.

(** The directives that persist from one insertion to the next. *)
Definition same_format (os os' : ostream) : Prop :=
  fill os' = fill os /\ adjustfield os' = adjustfield os /\
  floatfield os' = floatfield os /\ precision os' = precision os.

End Stream.

(* ------------------------------------------------------------------ *)
(** ** Forward iterators *)

Module Iter.
Import Value.

(** An iterator is a position in a sequence; [pos = length seq] is the
    past-the-end position.  An operation the C++ contract leaves undefined
    (dereferencing or stepping past the end, an unreachable distance) has no
    result. *)
Record iterator := MkIter { seq : list value; pos : nat }.

Definition begin_ (l : list value) : iterator := MkIter l 0.
Definition end_ (l : list value) : iterator := MkIter l (List.length l).

(** [*it] *)
Definition deref (it : iterator) : option value := nth_error (seq it) (pos it).

(** [std::advance(it, n)] for [n >= 0] *)
Definition advance (it : iterator) (n : nat) : option iterator :=
  if (pos it + n <=? List.length (seq it))%nat
  then Some (MkIter (seq it) (pos it + n))
  else None.

(** [++it] *)
Definition incr (it : iterator) : option iterator := advance it 1.

(** [a != b], for two iterators into the same sequence *)
Definition neq (a b : iterator) : bool := negb (pos a =? pos b)%nat.

(** [std::distance(a, b)]: the number of increments from [a] to [b] *)
Definition distance (a b : iterator) : option nat :=
  if ((pos a <=? pos b) && (pos b <=? List.length (seq a)))%nat
  then Some (pos b - pos a)%nat
  else None.

(** The elements from the iterator's position onwards. *)
Definition remaining (it : iterator) : list value := skipn (pos it) (seq it).

(** [it] points into its sequence or just past its end. *)
Definition valid (it : iterator) : Prop := (pos it <= List.length (seq it))%nat.

(** [[b, e)] is a range of one sequence. *)
Definition valid_range (b e : iterator) : Prop :=
  seq e = seq b /\ (pos b <= pos e <= List.length (seq b))%nat.

(** [it] moved [k] places on. *)
Definition shift (k : nat) (it : iterator) : iterator := MkIter (seq it) (pos it + k).

(** The sequence holds at least [n] elements from [it] on. *)
Definition room (n : nat) (it : iterator) : Prop :=
  (pos it + n <= List.length (seq it))%nat.

(** The elements of [[b, e)]. *)
Definition elements (b e : iterator) : list value :=
  firstn (pos e - pos b) (remaining b).

End Iter.

(* ------------------------------------------------------------------ *)
(** ** The class *)

Module OM.
Import Text Num Value Stream Iter.

(** Results of operations that may leave the C++ contract. *)
Definition bind {A B} (x : option A) (f : A -> option B) : option B :=
  match x with Some a => f a | None => None end.

Notation "x <- e ;; k" := (bind e (fun x => k))
  (at level 61, e at next level, right associativity).

Fixpoint mapM {A B} (f : A -> option B) (l : list A) : option (list B) :=
  match l with
  | [] => Some []
  | a :: r => b <- f a ;; bs <- mapM f r ;; Some (b :: bs)
  end.

(** [os |> f] applies one link of a [<<] chain. *)
Notation "os |> f" := (f os) (at level 50, left associativity, only parsing).

Definition newline : string := String "010"%char EmptyString.
Definition space : string := " ".

(** Streams live outside the manager, which holds a reference to one. *)
Definition stream_ref := nat.
Definition wcout : stream_ref := 0%nat.
Definition store := stream_ref -> ostream.

Definition update (st : store) (r : stream_ref) (os : ostream) : store :=
  fun k => if (k =? r)%nat then os else st k.

Record OutputManager := Manager {
  OutStream__ : stream_ref;
  Separator__ : string;
  EndOfLine__ : string;
  Width__ : size_t
}.

(** The special members the class declares [= delete]. *)
Inductive special_member := copy_constructor | copy_assignment.
Inductive availability := deleted | provided.
Definition declared (f : special_member) : availability :=
  match f with
  | copy_constructor => deleted
  | copy_assignment => deleted
  end.

(** *** Setters that touch the stream *)

Definition SetAlignment_on (Alignment : Z) (os : ostream) : ostream :=
  if negb (Alignment =? 0) then
    if Alignment >? 0 then os |> left
    else os |> right
  else os |> internal.

Definition SetPrecision_on (Precision : size_t) (os : ostream) : ostream :=
  os |> setprecision (int_of_size_t Precision).

Definition SetFloatMode_on (Mode : Z) (os : ostream) : ostream :=
  if negb (Mode =? 0) then
    if Mode >? 0 then os |> fixed
    else os |> scientific
  else os |> unsetf_floatfield.

(** *** Operators *)

(** [operator()()] *)
Definition call_void (m : OutputManager) (os : ostream) : ostream :=
  os |> put_string (EndOfLine__ m).

(** [operator()(T&& ToPrint)] *)
Definition call_one (m : OutputManager) (ToPrint : value) (os : ostream) : ostream :=
  os |> setw (int_of_size_t (Width__ m)) |> put ToPrint |> put_string (EndOfLine__ m).

(** [operator()(args...)]: no argument selects [operator()()], one argument
    [operator()(T&&)], more [operator()(T&&, P&&...)], which recurses on
    the pack. *)
Fixpoint call (m : OutputManager) (args : list value) (os : ostream) : ostream :=
  match args with
  | [] => call_void m os
  | [ToPrint] => call_one m ToPrint os
  | ToPrint :: ToPass =>
      call m ToPass
        (os |> setw (int_of_size_t (Width__ m)) |> put ToPrint |> put_string (Separator__ m))
  end.

(** *** Formatters *)

(** The loop of [PrintRange]; [fuel] bounds the elements left in the
    sequence, and running out of it is stepping past the end. *)
Fixpoint PrintRange_loop (fuel : nat) (m : OutputManager) (Begin End : iterator)
    (os : ostream) : option ostream :=
  if neq Begin End then
    match fuel with
    | O => None
    | S fuel' =>
        x <- deref Begin ;;
        let os' := os |> setw (int_of_size_t (Width__ m)) |> put x
                      |> put_string (Separator__ m) in
        Begin' <- incr Begin ;;
        PrintRange_loop fuel' m Begin' End os'
    end
  else Some os.

Definition PrintRange (m : OutputManager) (Begin End : iterator) (os : ostream)
    : option ostream :=
  os' <- PrintRange_loop (List.length (remaining Begin)) m Begin End os ;;
  Some (os' |> put_string (EndOfLine__ m)).

(** The loop of [FormatToColumns], with its local state: the iterators
    [Others] (taken by value) and the stream. *)
Fixpoint FormatToColumns_loop (fuel : nat) (m : OutputManager) (Begin End : iterator)
    (Others : list iterator) (os : ostream) : option (list iterator * ostream) :=
  if neq Begin End then
    match fuel with
    | O => None
    | S fuel' =>
        x <- deref Begin ;;
        ys <- mapM deref Others ;;
        let os' := call m (x :: ys) os in
        Others' <- mapM (fun Iterator => advance Iterator 1) Others ;;
        Begin' <- incr Begin ;;
        FormatToColumns_loop fuel' m Begin' End Others' os'
    end
  else Some (Others, os).

Definition FormatToColumns (m : OutputManager) (Begin End : iterator)
    (Others : list iterator) (os : ostream) : option ostream :=
  r <- FormatToColumns_loop (List.length (remaining Begin)) m Begin End Others os ;;
  Some (snd r).

(** The lambda [FormatToRows] applies to each of [Others]. *)
Definition FormatToRows_each (m : OutputManager) (Begin End : iterator)
    (os : ostream) (NewBegin : iterator) : option ostream :=
  d <- distance Begin End ;;
  NewEnd <- advance NewBegin d ;;
  PrintRange m NewBegin NewEnd os.

Definition FormatToRows (m : OutputManager) (Begin End : iterator)
    (Others : list iterator) (os : ostream) : option ostream :=
  os1 <- PrintRange m Begin End os ;;
  fold_left (fun acc NewBegin => os' <- acc ;; FormatToRows_each m Begin End os' NewBegin)
            Others (Some os1).

(** [std::advance(End, N)] with a [size_t] count: the count converts to the
    iterator's difference type, exactly for every count a sequence can
    hold. *)
Definition FirstNElementsRows (m : OutputManager) (N : size_t) (Begin : iterator)
    (Others : list iterator) (os : ostream) : option ostream :=
  End <- advance Begin (N.to_nat N) ;;
  FormatToRows m Begin End Others os.

(** *** Setters of the members *)

Definition SetWidth (Width : size_t) (m : OutputManager) : OutputManager :=
  Manager (OutStream__ m) (Separator__ m) (EndOfLine__ m) Width.

Definition SetSeparator (Separator : string) (m : OutputManager) : OutputManager :=
  Manager (OutStream__ m) Separator (EndOfLine__ m) (Width__ m).

Definition SetEndOfLine (EndOfLine : string) (m : OutputManager) : OutputManager :=
  Manager (OutStream__ m) (Separator__ m) EndOfLine (Width__ m).

(** *** The object and its stream together *)

Definition world := (OutputManager * store)%type.

(** Run a stream operation on the stream the manager refers to. *)
Definition on_stream (m : OutputManager) (f : ostream -> ostream) (st : store) : store :=
  update st (OutStream__ m) (f (st (OutStream__ m))).

Definition on_stream_opt (m : OutputManager) (f : ostream -> option ostream)
    (st : store) : option store :=
  os' <- f (st (OutStream__ m)) ;; Some (update st (OutStream__ m) os').

Definition SetAlignment (Alignment : Z) (w : world) : world :=
  (fst w, on_stream (fst w) (SetAlignment_on Alignment) (snd w)).

Definition SetPrecision (Precision : size_t) (w : world) : world :=
  (fst w, on_stream (fst w) (SetPrecision_on Precision) (snd w)).

Definition SetFloatMode (Mode : Z) (w : world) : world :=
  (fst w, on_stream (fst w) (SetFloatMode_on Mode) (snd w)).

(** The four constructors: initialise the members, then [SetAlignment(1)]. *)
Definition construct (r : stream_ref) (Separator EndOfLine : string) (st : store) : world :=
  SetAlignment 1 (Manager r Separator EndOfLine 0%N, st).

Definition OutputManager_default (st : store) : world :=
  construct wcout space newline st.
Definition OutputManager_stream (OutStream : stream_ref) (st : store) : world :=
  construct OutStream space newline st.
Definition OutputManager_strings (Separator EndOfLine : string) (st : store) : world :=
  construct wcout Separator EndOfLine st.
Definition OutputManager_full (OutStream : stream_ref) (Separator EndOfLine : string)
    (st : store) : world :=
  construct OutStream Separator EndOfLine st.

(** The public member functions, as requests. *)
Inductive request :=
| Call (args : list value)
| DoPrintRange (Begin End : iterator)
| DoFormatToColumns (Begin End : iterator) (Others : list iterator)
| DoFormatToRows (Begin End : iterator) (Others : list iterator)
| DoFirstNElementsRows (N : size_t) (Begin : iterator) (Others : list iterator)
| DoSetWidth (Width : size_t)
| DoSetSeparator (Separator : string)
| DoSetEndOfLine (EndOfLine : string)
| DoSetAlignment (Alignment : Z)
| DoSetPrecision (Precision : size_t)
| DoSetFloatMode (Mode : Z).

Definition is_print (q : request) : bool :=
  match q with
  | Call _ | DoPrintRange _ _ | DoFormatToColumns _ _ _
  | DoFormatToRows _ _ _ | DoFirstNElementsRows _ _ _ => true
  | _ => false
  end.

Definition is_SetAlignment (q : request) : bool :=
  match q with DoSetAlignment _ => true | _ => false end.

Definition is_SetPrecision (q : request) : bool :=
  match q with DoSetPrecision _ => true | _ => false end.

Definition exec (q : request) (w : world) : option world :=
  let m := fst w in
  let st := snd w in
  match q with
  | Call args => Some (m, on_stream m (call m args) st)
  | DoPrintRange b e => st' <- on_stream_opt m (PrintRange m b e) st ;; Some (m, st')
  | DoFormatToColumns b e o =>
      st' <- on_stream_opt m (FormatToColumns m b e o) st ;; Some (m, st')
  | DoFormatToRows b e o =>
      st' <- on_stream_opt m (FormatToRows m b e o) st ;; Some (m, st')
  | DoFirstNElementsRows n b o =>
      st' <- on_stream_opt m (FirstNElementsRows m n b o) st ;; Some (m, st')
  | DoSetWidth n => Some (SetWidth n m, st)
  | DoSetSeparator s => Some (SetSeparator s m, st)
  | DoSetEndOfLine s => Some (SetEndOfLine s m, st)
  | DoSetAlignment a => Some (SetAlignment a w)
  | DoSetPrecision p => Some (SetPrecision p w)
  | DoSetFloatMode f => Some (SetFloatMode f w)
  end.

Fixpoint run (qs : list request) (w : world) : option world :=
  match qs with
  | [] => Some w
  | q :: r => w' <- exec q w ;; run r w'
  end.

(** The stream the manager writes to. *)
Definition dest (w : world) : ostream := snd w (OutStream__ (fst w)).

(** *** What the print operations are said to write *)

(** Elements as fields of minimum width [w], joined by the separator and
    closed by the end-of-line string. *)
Definition joined_line (m : OutputManager) (os : ostream) (w : Z) (vs : list value)
    : string :=
  String.concat (Separator__ m) (map (field os w) vs) ++ EndOfLine__ m.

(** Each element as a field of minimum width [w] followed by the separator,
    then the end-of-line string. *)
Definition range_line (m : OutputManager) (os : ostream) (w : Z) (vs : list value)
    : string :=
  cat (map (fun v => field os w v ++ Separator__ m) vs) ++ EndOfLine__ m.

(** The text [PrintRange] appends: on an empty range the end-of-line string
    is the first insertion and takes the width pending on the stream. *)
Definition range_text (m : OutputManager) (os : ostream) (vs : list value) : string :=
  match vs with
  | [] => field_string os (width os) (EndOfLine__ m)
  | _ => range_line m os (int_of_size_t (Width__ m)) vs
  end.

(** The lines of [FormatToRows]: the first range, then the first [n]
    elements from each of [Others]; only the first line can meet a width
    pending on the stream. *)
Definition row_lines (m : OutputManager) (os : ostream) (first : list value)
    (others : list (list value)) : list string :=
  range_text m os first
    :: map (fun o => range_text m (with_width 0 os) (firstn (List.length first) o)) others.

Definition default_value : value := VStr "".

(** Row [i] of a table: element [i] of the first column, then element [i]
    of each other column in order. *)
Definition row (first : list value) (others : list (list value)) (i : nat) : list value :=
  nth i first default_value :: map (fun o => nth i o default_value) others.

Definition rows (first : list value) (others : list (list value)) : list (list value) :=
  map (row first others) (List.seq 0 (List.length first)).

End OM.

(* ------------------------------------------------------------------ *)
(** ** The data of the header's examples, and a few objects *)

Module Sample.
Import Text Num Value Stream Iter OM.

Definition flt (m : N) (e : Z) : value := VFloat (Decimal false m e).

(** [std::vector<int> Numbers {1, 2, 3, 4, 5};] and its two companions. *)
Definition Numbers : list value := map VInt [1; 2; 3; 4; 5].
Definition Floats : list value :=
  [flt 11 (-1); flt 21 (-1); flt 31 (-1); flt 41 (-1); flt 51 (-1)].
Definition Words : list value := map VStr ["Cat"; "Dog"; "Mouse"; "Cow"; "Salmon"].

(** Every stream fresh. *)
Definition fresh_store : store := fun _ => fresh.

(** Every stream fresh but for a width of 3 armed by the caller
    ([std::wcout << std::setw(3);]). *)
Definition armed_store : store := fun _ => setw 3 fresh.

(** [OutputManager O;] *)
Definition O : world := OutputManager_default fresh_store.

(** [OutputManager O;] on the armed stream. *)
Definition O_armed : world := OutputManager_default armed_store.

(** [O.SetWidth(5);] *)
Definition O5 : OutputManager := SetWidth 5%N (fst O).

(** [O.SetWidth(2147483648);], one more than [INT_MAX]. *)
Definition O_wide : OutputManager := SetWidth 2147483648%N (fst O).

Definition a : value := VStr "a".
Definition one_half : value := flt 15 (-1).

(** Text made of lines, each closed by a newline. *)
Definition lines (l : list string) : string := cat (map (fun s => s ++ newline) l).

End Sample.

(* ------------------------------------------------------------------ *)
(** ** Notions used to describe runs of requests *)

Module Runs.
Import Text Num Value Stream Iter OM.

(** What a request does to the members of the manager: only the three
    member setters do anything. *)
Definition apply_setter (q : request) (m : OutputManager) : OutputManager :=
  match q with
  | DoSetWidth n => SetWidth n m
  | DoSetSeparator s => SetSeparator s m
  | DoSetEndOfLine s => SetEndOfLine s m
  | _ => m
  end.

Definition settings (qs : list request) (m : OutputManager) : OutputManager :=
  fold_left (fun m q => apply_setter q m) qs m.

Definition is_SetFloatMode (q : request) : bool :=
  match q with DoSetFloatMode _ => true | _ => false end.

(** The print requests that insert the end-of-line string whatever their
    arguments ([FormatToColumns] does not on an empty range). *)
Definition ends_a_line (q : request) : bool :=
  match q with
  | Call _ | DoPrintRange _ _ | DoFormatToRows _ _ _ | DoFirstNElementsRows _ _ _ => true
  | _ => false
  end.

(** [os'] holds what [os] held, and possibly more after it. *)
Definition extends (os os' : ostream) : Prop := exists t, wrote os os' t.

Definition is_digit (c : ascii) : bool :=
  let n := nat_of_ascii c in ((48 <=? n) && (n <=? 57))%nat.

Fixpoint all_digits (s : string) : bool :=
  match s with
  | EmptyString => true
  | String c r => is_digit c && all_digits r
  end.


End Runs.

(* ------------------------------------------------------------------ *)
(** * Facts *)

Module TextFacts.
Import Text.

Lemma app_nil_r (s : string) : s ++ "" = s.
Proof. induction s as [|c s IH]; simpl; [reflexivity | now rewrite IH]. Qed.

Lemma app_assoc (a b c : string) : (a ++ b) ++ c = a ++ (b ++ c).
Proof. induction a as [|x a IH]; simpl; [reflexivity | now rewrite IH]. Qed.

Lemma length_app (a b : string) :
  String.length (a ++ b) = (String.length a + String.length b)%nat.
Proof. induction a as [|x a IH]; simpl; [reflexivity | now rewrite IH]. Qed.

Lemma length_replicate c n : String.length (replicate c n) = n.
Proof. induction n as [|n IH]; simpl; [reflexivity | now rewrite IH]. Qed.

Lemma app_inv_head (a b c : string) : a ++ b = a ++ c -> b = c.
Proof.
  induction a as [|x a IH]; simpl; intros H; [exact H|].
  injection H as H. now apply IH.
Qed.

Lemma cat_app (l1 l2 : list string) : cat (l1 ++ l2) = cat l1 ++ cat l2.
Proof.
  induction l1 as [|s l1 IH]; simpl; [reflexivity|].
  now rewrite IH, app_assoc.
Qed.

End TextFacts.

Module NumFacts.
Import Num.

Lemma to_int_small z : INT_MIN <= z <= INT_MAX -> to_int z = z.
Proof.
  unfold to_int, INT_MIN, INT_MAX. intros H.
  rewrite Z.mod_small by lia. lia.
Qed.

Lemma to_int_range z : INT_MIN <= to_int z <= INT_MAX.
Proof.
  unfold to_int, INT_MIN, INT_MAX.
  pose proof (Z.mod_pos_bound (z + 2147483648) 4294967296 ltac:(lia)). lia.
Qed.

Lemma int_of_size_t_small n : Z.of_N n <= INT_MAX -> int_of_size_t n = Z.of_N n.
Proof.
  intros H. apply to_int_small. unfold INT_MIN. lia.
Qed.

End NumFacts.

Module StreamFacts.
Import Text TextFacts Value Stream.

Lemma len_app (a b : string) : len (a ++ b) = len a + len b.
Proof. unfold len. rewrite length_app. lia. Qed.

(** A field is at least [w] characters long, and no longer than that unless
    the text itself is. *)
Lemma pad_length c a w sg bd :
  len (pad c a w sg bd) = Z.max w (len (sg ++ bd)).
Proof.
  unfold pad. set (k := Z.to_nat (w - len (sg ++ bd))).
  assert (E : len (replicate c k) = Z.of_nat k).
  { unfold len. now rewrite length_replicate. }
  pose proof (len_app sg bd) as L.
  destruct a; repeat rewrite len_app; rewrite E; subst k; lia.
Qed.

Lemma pad_fits c a w sg bd : w <= len (sg ++ bd) -> pad c a w sg bd = sg ++ bd.
Proof.
  intros H. unfold pad.
  replace (Z.to_nat (w - len (sg ++ bd))) with O by lia.
  destruct a; simpl; now rewrite ?app_nil_r.
Qed.

Lemma len_nonneg s : 0 <= len s.
Proof. unfold len. lia. Qed.

Lemma field_length os w v : len (field os w v) = Z.max w (len (text os v)).
Proof. apply pad_length. Qed.

(** Width zero (or any width the text already reaches) adds nothing. *)
Lemma field_fits os w v : w <= len (text os v) -> field os w v = text os v.
Proof. apply pad_fits. Qed.

Lemma field_0 os w v : w <= 0 -> field os w v = text os v.
Proof. intros H. apply field_fits. pose proof (len_nonneg (text os v)). lia. Qed.

Lemma field_string_fits os w s : w <= len s -> field_string os w s = s.
Proof. intros H. unfold field_string. now rewrite pad_fits. Qed.

Lemma field_string_0 os w s : w <= 0 -> field_string os w s = s.
Proof. intros H. apply field_string_fits. pose proof (len_nonneg s). lia. Qed.

(** [internal] puts the fill between sign and digits, [left] after the
    text, [right] before it. *)
Lemma field_internal os w v :
  adjustfield os = adj_internal ->
  field os w v =
    fst (render os v) ++
    replicate (fill os) (Z.to_nat (w - len (text os v))) ++
    snd (render os v).
Proof. unfold field, pad, text. now intros ->. Qed.

Lemma field_left os w v :
  adjustfield os = adj_left ->
  field os w v = text os v ++ replicate (fill os) (Z.to_nat (w - len (text os v))).
Proof. unfold field, pad, text. intros ->. now rewrite app_assoc. Qed.

Lemma field_right os w v :
  adjustfield os = adj_right ->
  field os w v = replicate (fill os) (Z.to_nat (w - len (text os v))) ++ text os v.
Proof. unfold field, pad, text. now intros ->. Qed.

(** *** The persistent directives *)

Lemma same_format_refl os : same_format os os.
Proof. repeat split. Qed.

Lemma same_format_trans a b c : same_format a b -> same_format b c -> same_format a c.
Proof. unfold same_format. intuition congruence. Qed.

Lemma same_format_emit t os : same_format os (emit t os).
Proof. repeat split. Qed.

Lemma same_format_setw w os : same_format os (setw w os).
Proof. repeat split. Qed.

Lemma render_same os os' v : same_format os os' -> render os' v = render os v.
Proof.
  intros (_ & _ & Hf & Hp). destruct v as [z|d|s]; simpl; try reflexivity.
  unfold float_body, float_precision. now rewrite Hf, Hp.
Qed.

Lemma field_same os os' w v : same_format os os' -> field os' w v = field os w v.
Proof.
  intros H. unfold field. rewrite (render_same os os' v H).
  destruct H as (-> & -> & _). reflexivity.
Qed.

Lemma field_string_same os os' w s :
  same_format os os' -> field_string os' w s = field_string os w s.
Proof. unfold field_string. intros (-> & -> & _). reflexivity. Qed.

(** *** Insertion *)

Lemma emit_emit t1 t2 os : emit t2 (emit t1 os) = emit (t1 ++ t2) os.
Proof. unfold emit, with_width, with_buffer. simpl. now rewrite app_assoc. Qed.

Lemma buffer_emit t os : buffer (emit t os) = buffer os ++ t.
Proof. reflexivity. Qed.

Lemma width_emit t os : width (emit t os) = 0.
Proof. reflexivity. Qed.

Lemma wrote_emit t os : wrote os (emit t os) t.
Proof. reflexivity. Qed.

Lemma wrote_nothing os : wrote os os "".
Proof. unfold wrote. now rewrite app_nil_r. Qed.

(** [os << std::setw(w) << v] *)
Lemma put_setw w v os : put v (setw w os) = emit (field os w v) os.
Proof. reflexivity. Qed.

(** A string inserted right after another insertion is not padded. *)
Lemma put_string_emit s t os : put_string s (emit t os) = emit (t ++ s) os.
Proof.
  unfold put_string. rewrite width_emit, field_string_0 by lia. apply emit_emit.
Qed.

Lemma put_string_idle s os : width os <= 0 -> put_string s os = emit s os.
Proof. intros H. unfold put_string. now rewrite field_string_0. Qed.

(** [os << std::setw(w) << v << s] *)
Lemma put_element w v s os :
  put_string s (put v (setw w os)) = emit (field os w v ++ s) os.
Proof. rewrite put_setw. apply put_string_emit. Qed.

Lemma wrote_inj os os' t t' : wrote os os' t -> wrote os os' t' -> t = t'.
Proof. unfold wrote. intros H H'. rewrite H in H'. now apply app_inv_head in H'. Qed.

End StreamFacts.

Module IterFacts.
Import Value Iter.

Lemma skipn_nth_error {A} (l : list A) : forall n x,
  nth_error l n = Some x -> skipn n l = x :: skipn (S n) l.
Proof.
  induction l as [|a l IH]; intros [|n] x H; simpl in *; try discriminate.
  - now injection H as ->.
  - now apply IH.
Qed.

Lemma skipn_S_tl {A} (l : list A) : forall n, skipn (S n) l = tl (skipn n l).
Proof.
  induction l as [|a l IH]; intros [|n]; try reflexivity.
  change (skipn (S (S n)) (a :: l)) with (skipn (S n) l).
  change (skipn (S n) (a :: l)) with (skipn n l). apply IH.
Qed.

Lemma length_remaining it :
  List.length (remaining it) = (List.length (seq it) - pos it)%nat.
Proof. apply length_skipn. Qed.

Lemma remaining_shift k it : remaining (shift k it) = skipn k (remaining it).
Proof. unfold remaining, shift. simpl. now rewrite skipn_skipn, Nat.add_comm. Qed.

Lemma remaining_shift1 it : remaining (shift 1 it) = tl (remaining it).
Proof.
  unfold remaining, shift. simpl. rewrite Nat.add_1_r. apply skipn_S_tl.
Qed.

Lemma advance_room it n : room n it -> advance it n = Some (shift n it).
Proof.
  unfold room, advance, shift. intros H.
  now rewrite (proj2 (Nat.leb_le _ _) H).
Qed.

Lemma incr_room it : room 1 it -> incr it = Some (shift 1 it).
Proof. apply advance_room. Qed.

Lemma deref_room it :
  room 1 it -> exists x, deref it = Some x /\ remaining it = x :: remaining (shift 1 it).
Proof.
  unfold room, deref. intros H.
  destruct (nth_error (seq it) (pos it)) as [x|] eqn:E.
  - exists x. split; [reflexivity|].
    unfold remaining, shift. simpl. rewrite Nat.add_1_r.
    now apply skipn_nth_error.
  - apply nth_error_None in E. lia.
Qed.

Lemma deref_nth it d : room 1 it -> deref it = Some (nth 0 (remaining it) d).
Proof.
  intros H. destruct (deref_room it H) as (x & -> & ->). reflexivity.
Qed.

Lemma shift_shift a b it : shift a (shift b it) = shift (b + a) it.
Proof. unfold shift. simpl. now rewrite Nat.add_assoc. Qed.

Lemma shift_0 it : shift 0 it = it.
Proof. destruct it as [l p]. unfold shift. simpl. now rewrite Nat.add_0_r. Qed.

Lemma room_weaken n k it : (k <= n)%nat -> room n it -> room k it.
Proof. unfold room. lia. Qed.

Lemma room_shift n k it : room (k + n) it -> room n (shift k it).
Proof. unfold room, shift. simpl. lia. Qed.

Lemma room_valid n it : room n it -> valid it.
Proof. unfold room, valid. lia. Qed.

Lemma room_0 it : valid it -> room 0 it.
Proof. unfold room, valid. lia. Qed.

Lemma distance_range b e :
  valid_range b e -> distance b e = Some (pos e - pos b)%nat.
Proof.
  intros (_ & H1 & H2). unfold distance.
  now rewrite (proj2 (Nat.leb_le _ _) H1), (proj2 (Nat.leb_le _ _) H2).
Qed.

Lemma elements_shift n it : elements it (shift n it) = firstn n (remaining it).
Proof.
  unfold elements, shift. simpl. f_equal. lia.
Qed.

Lemma valid_range_shift n it : room n it -> valid_range it (shift n it).
Proof. unfold room, valid_range, shift. simpl. intros H. split; [reflexivity | lia]. Qed.

Lemma length_elements b e :
  valid_range b e -> List.length (elements b e) = (pos e - pos b)%nat.
Proof.
  intros (_ & H1 & H2). unfold elements.
  rewrite length_firstn, length_remaining. lia.
Qed.

Lemma elements_begin_end (l : list value) : elements (begin_ l) (end_ l) = l.
Proof.
  unfold elements, remaining, begin_, end_. simpl.
  rewrite Nat.sub_0_r. apply firstn_all.
Qed.

Lemma valid_range_begin_end (l : list value) : valid_range (begin_ l) (end_ l).
Proof. unfold valid_range, begin_, end_. simpl. split; [reflexivity | lia]. Qed.

End IterFacts.

Module OMFacts.
Import Text TextFacts Num NumFacts Value Stream StreamFacts Iter IterFacts OM.

Lemma mapM_total {A B} (f : A -> option B) (g : A -> B) (l : list A) :
  Forall (fun a => f a = Some (g a)) l -> mapM f l = Some (map g l).
Proof.
  induction 1 as [|a l Ha _ IH]; simpl; [reflexivity|].
  now rewrite Ha, IH.
Qed.

(** *** Lines written one by one *)

Lemma emit_lines_cons l ls os : emit_lines (l :: ls) os = emit_lines ls (emit l os).
Proof. reflexivity. Qed.

Lemma emit_lines_emit ls : forall t os,
  emit_lines ls (emit t os) = emit (t ++ cat ls) os.
Proof.
  induction ls as [|l ls IH]; intros t os; simpl.
  - now rewrite app_nil_r.
  - change (emit_lines ls (emit l (emit t os)) = emit (t ++ l ++ cat ls) os).
    now rewrite emit_emit, IH, app_assoc.
Qed.

Lemma emit_lines_wrote ls os : wrote os (emit_lines ls os) (cat ls).
Proof.
  destruct ls as [|l ls]; [apply wrote_nothing|].
  rewrite emit_lines_cons, emit_lines_emit. apply wrote_emit.
Qed.

Lemma emit_lines_same_format ls os : same_format os (emit_lines ls os).
Proof.
  destruct ls as [|l ls]; [apply same_format_refl|].
  rewrite emit_lines_cons, emit_lines_emit. apply same_format_emit.
Qed.

Lemma emit_lines_width ls os : ls <> [] -> width (emit_lines ls os) = 0.
Proof.
  destruct ls as [|l ls]; [congruence|]. intros _.
  now rewrite emit_lines_cons, emit_lines_emit.
Qed.

Lemma emit_lines_nonempty ls os : ls <> [] -> emit_lines ls os = emit (cat ls) os.
Proof.
  destruct ls as [|l ls]; [congruence|]. intros _.
  now rewrite emit_lines_cons, emit_lines_emit.
Qed.

(** *** [operator()] *)

Lemma joined_line_same m os os' w vs :
  same_format os os' -> joined_line m os' w vs = joined_line m os w vs.
Proof.
  intros H. unfold joined_line. f_equal. f_equal.
  apply map_ext. intros v. now apply field_same.
Qed.

Lemma range_line_same m os os' w vs :
  same_format os os' -> range_line m os' w vs = range_line m os w vs.
Proof.
  intros H. unfold range_line. f_equal. f_equal.
  apply map_ext. intros v. now rewrite (field_same os os').
Qed.

Lemma range_text_same m os os' vs :
  same_format os os' -> width os' = width os ->
  range_text m os' vs = range_text m os vs.
Proof.
  intros H Hw. destruct vs as [|v vs]; simpl.
  - rewrite Hw. now apply field_string_same.
  - now apply (range_line_same m os os' _ (v :: vs)).
Qed.

Lemma call_void_emit m os :
  call_void m os = emit (field_string os (width os) (EndOfLine__ m)) os.
Proof. reflexivity. Qed.

Lemma call_one_emit m v os :
  call_one m v os =
  emit (field os (int_of_size_t (Width__ m)) v ++ EndOfLine__ m) os.
Proof. unfold call_one. apply put_element. Qed.

Lemma call_emit m vs : forall v os,
  call m (v :: vs) os = emit (joined_line m os (int_of_size_t (Width__ m)) (v :: vs)) os.
Proof.
  induction vs as [|u vs IH]; intros v os.
  - apply call_one_emit.
  - change (call m (v :: u :: vs) os)
      with (call m (u :: vs)
              (put_string (Separator__ m) (put v (setw (int_of_size_t (Width__ m)) os)))).
    rewrite put_element, IH, emit_emit.
    rewrite (joined_line_same m os _ _ _ (same_format_emit _ os)).
    f_equal. unfold joined_line.
    change (map (field os (int_of_size_t (Width__ m))) (v :: u :: vs))
      with (field os (int_of_size_t (Width__ m)) v ::
            map (field os (int_of_size_t (Width__ m))) (u :: vs)).
    change (map (field os (int_of_size_t (Width__ m))) (u :: vs))
      with (field os (int_of_size_t (Width__ m)) u ::
            map (field os (int_of_size_t (Width__ m))) vs).
    cbn [String.concat]. now rewrite !app_assoc.
Qed.

(** *** [PrintRange] *)

Lemma PrintRange_loop_lines m n : forall fuel Begin End os,
  pos End = (pos Begin + n)%nat -> room n Begin -> (n <= fuel)%nat ->
  PrintRange_loop fuel m Begin End os =
  Some (emit_lines
          (map (fun v => field os (int_of_size_t (Width__ m)) v ++ Separator__ m)
               (firstn n (remaining Begin))) os).
Proof.
  induction n as [|n IH]; intros fuel b e os He Hroom Hfuel.
  - destruct fuel; simpl; unfold neq;
      rewrite (proj2 (Nat.eqb_eq (pos b) (pos e))) by lia; reflexivity.
  - destruct fuel as [|fuel]; [lia|].
    assert (H1 : room 1 b) by (apply (room_weaken (S n)); [lia | exact Hroom]).
    destruct (deref_room b H1) as (x & Hx & Hrem).
    cbn [PrintRange_loop]. unfold neq.
    rewrite (proj2 (Nat.eqb_neq (pos b) (pos e))) by lia. cbn [negb].
    rewrite Hx, (incr_room b H1). cbn [bind].
    rewrite put_element.
    rewrite (IH fuel (shift 1 b) e) by
      (try apply room_shift; unfold shift; simpl; try exact Hroom; lia).
    rewrite Hrem. cbn [firstn map]. rewrite emit_lines_cons.
    reflexivity.
Qed.

(** [PrintRange] on a range of one sequence writes [range_text] of its
    elements, as one insertion sequence. *)
Lemma PrintRange_emit m Begin End os :
  valid_range Begin End ->
  PrintRange m Begin End os = Some (emit (range_text m os (elements Begin End)) os).
Proof.
  intros (Hs & H1 & H2). unfold PrintRange.
  rewrite (PrintRange_loop_lines m (pos End - pos Begin))
    by (unfold room; rewrite ?length_remaining; lia).
  cbn [bind]. f_equal. fold (elements Begin End).
  destruct (elements Begin End) as [|v vs]; [reflexivity|].
  rewrite emit_lines_nonempty by discriminate.
  rewrite put_string_emit. reflexivity.
Qed.

(** *** [FormatToColumns] *)

Lemma nth_S_tl {A} (l : list A) i d : nth (S i) l d = nth i (tl l) d.
Proof. destruct l; [now destruct i | reflexivity]. Qed.

Lemma row_cons x first others i :
  row (x :: first) others (S i) = row first (map (@tl value) others) i.
Proof.
  unfold row. cbn [nth]. f_equal. rewrite map_map.
  apply map_ext. intros o. apply nth_S_tl.
Qed.

Lemma rows_cons x first others :
  rows (x :: first) others =
  (x :: map (fun o => nth 0 o default_value) others)
    :: rows first (map (@tl value) others).
Proof.
  unfold rows. cbn [List.length List.seq map]. f_equal.
  rewrite <- seq_shift, map_map. apply map_ext. intros i. apply row_cons.
Qed.

Lemma length_rows first others : List.length (rows first others) = List.length first.
Proof. unfold rows. now rewrite length_map, length_seq. Qed.

Lemma nth_rows first others i :
  (i < List.length first)%nat ->
  nth i (rows first others) [] = row first others i.
Proof.
  intros H. unfold rows.
  rewrite (nth_indep _ [] (row first others 0)) by now rewrite length_map, length_seq.
  rewrite map_nth, seq_nth by exact H. reflexivity.
Qed.

Lemma Forall_room_shift n k Others :
  Forall (room (k + n)) Others -> Forall (room n) (map (shift k) Others).
Proof.
  intros H. apply Forall_map. revert H. apply Forall_impl.
  intros it. apply room_shift.
Qed.

Lemma Forall_room_weaken n k Others :
  (k <= n)%nat -> Forall (room n) Others -> Forall (room k) Others.
Proof. intros Hk. apply Forall_impl. intros it. now apply room_weaken. Qed.

(** One pass of the loop body: every iterator of [Others] is dereferenced,
    then moved on by one. *)
Lemma deref_all Others :
  Forall (room 1) Others ->
  mapM deref Others = Some (map (fun o => nth 0 o default_value) (map remaining Others)).
Proof.
  intros H. rewrite map_map. apply mapM_total.
  revert H. apply Forall_impl. intros it. apply deref_nth.
Qed.

Lemma advance_all n Others :
  Forall (room n) Others ->
  mapM (fun it => advance it n) Others = Some (map (shift n) Others).
Proof.
  intros H. apply mapM_total. revert H. apply Forall_impl.
  intros it. apply advance_room.
Qed.

Lemma FormatToColumns_loop_lines m n : forall fuel Begin End Others os,
  pos End = (pos Begin + n)%nat -> room n Begin -> (n <= fuel)%nat ->
  Forall (room n) Others ->
  FormatToColumns_loop fuel m Begin End Others os =
  Some (map (shift n) Others,
        emit_lines
          (map (joined_line m os (int_of_size_t (Width__ m)))
               (rows (firstn n (remaining Begin)) (map remaining Others))) os).
Proof.
  induction n as [|n IH]; intros fuel b e Others os He Hroom Hfuel HO.
  - assert (Hid : map (shift 0) Others = Others).
    { rewrite <- (map_id Others) at 2. apply map_ext. apply shift_0. }
    destruct fuel; simpl; unfold neq;
      rewrite (proj2 (Nat.eqb_eq (pos b) (pos e))) by lia; cbn [negb];
      now rewrite Hid.
  - destruct fuel as [|fuel]; [lia|].
    assert (H1 : room 1 b) by (apply (room_weaken (S n)); [lia | exact Hroom]).
    assert (HO1 : Forall (room 1) Others) by (apply (Forall_room_weaken (S n)); [lia | exact HO]).
    destruct (deref_room b H1) as (x & Hx & Hrem).
    cbn [FormatToColumns_loop]. unfold neq.
    rewrite (proj2 (Nat.eqb_neq (pos b) (pos e))) by lia. cbn [negb].
    rewrite Hx, (deref_all Others HO1), (advance_all 1 Others HO1), (incr_room b H1).
    cbn [bind].
    rewrite call_emit.
    rewrite (IH fuel (shift 1 b) e (map (shift 1) Others)); cycle 1.
    { unfold shift. simpl. lia. }
    { apply room_shift. exact Hroom. }
    { lia. }
    { apply Forall_room_shift. exact HO. }
    rewrite Hrem. cbn [firstn]. rewrite rows_cons. cbn [map].
    rewrite emit_lines_cons. f_equal. f_equal.
    + rewrite map_map. apply map_ext. intros it. rewrite shift_shift. reflexivity.
    + assert (Hrest : map remaining (map (shift 1) Others)
                      = map (@tl value) (map remaining Others)).
      { rewrite !map_map. apply map_ext. intros it. apply remaining_shift1. }
      rewrite Hrest. reflexivity.
Qed.

Lemma FormatToColumns_lines m Begin End Others os :
  valid_range Begin End ->
  Forall (room (pos End - pos Begin)) Others ->
  FormatToColumns m Begin End Others os =
  Some (emit_lines
          (map (joined_line m os (int_of_size_t (Width__ m)))
               (rows (elements Begin End) (map remaining Others))) os).
Proof.
  intros (Hs & H1 & H2) HO. unfold FormatToColumns.
  rewrite (FormatToColumns_loop_lines m (pos End - pos Begin))
    by (unfold room; rewrite ?length_remaining; try exact HO; lia).
  reflexivity.
Qed.

(** *** [FormatToRows] and [FirstNElementsRows] *)

Lemma FormatToRows_each_emit m Begin End os NewBegin :
  valid_range Begin End -> room (pos End - pos Begin) NewBegin ->
  FormatToRows_each m Begin End os NewBegin =
  Some (emit (range_text m os (firstn (pos End - pos Begin) (remaining NewBegin))) os).
Proof.
  intros Hr Hn. unfold FormatToRows_each.
  rewrite (distance_range _ _ Hr). cbn [bind].
  rewrite (advance_room _ _ Hn). cbn [bind].
  rewrite PrintRange_emit by now apply valid_range_shift.
  now rewrite elements_shift.
Qed.

Lemma FormatToRows_fold m Begin End os Others :
  valid_range Begin End -> Forall (room (pos End - pos Begin)) Others ->
  forall os1, same_format os os1 -> width os1 = 0 ->
  fold_left (fun acc NewBegin => os' <- acc ;; FormatToRows_each m Begin End os' NewBegin)
            Others (Some os1) =
  Some (emit_lines
          (map (fun it => range_text m (with_width 0 os)
                            (firstn (pos End - pos Begin) (remaining it))) Others) os1).
Proof.
  intros Hr. induction 1 as [|it Others Hit _ IH]; intros os1 Hf Hw; [reflexivity|].
  cbn [fold_left bind map]. rewrite (FormatToRows_each_emit _ _ _ _ _ Hr Hit).
  rewrite IH.
  - rewrite emit_lines_cons. f_equal. f_equal. f_equal.
    apply range_text_same; [|exact Hw].
    apply (same_format_trans _ os); [|exact Hf]. repeat split.
  - apply (same_format_trans _ os1); [exact Hf | apply same_format_emit].
  - reflexivity.
Qed.

Lemma FormatToRows_lines m Begin End Others os :
  valid_range Begin End -> Forall (room (pos End - pos Begin)) Others ->
  FormatToRows m Begin End Others os =
  Some (emit_lines (row_lines m os (elements Begin End) (map remaining Others)) os).
Proof.
  intros Hr HO. unfold FormatToRows, row_lines.
  rewrite (PrintRange_emit _ _ _ _ Hr). cbn [bind].
  rewrite (FormatToRows_fold m Begin End os Others Hr HO)
    by (try apply same_format_emit; reflexivity).
  rewrite emit_lines_cons, map_map, (length_elements _ _ Hr). reflexivity.
Qed.

Lemma FirstNElementsRows_unfold m N Begin Others os :
  room (N.to_nat N) Begin ->
  FirstNElementsRows m N Begin Others os =
  FormatToRows m Begin (shift (N.to_nat N) Begin) Others os.
Proof. intros H. unfold FirstNElementsRows. now rewrite (advance_room _ _ H). Qed.

(** *** What every print operation leaves alone *)

Create HintDb fmt.
#[local] Hint Resolve same_format_refl same_format_emit same_format_setw : fmt.

Lemma call_same_format m vs os : same_format os (call m vs os).
Proof.
  destruct vs as [|v vs].
  - apply same_format_emit.
  - rewrite call_emit. auto with fmt.
Qed.

Lemma bind_Some {A B} (x : option A) (f : A -> option B) b :
  bind x f = Some b -> exists a, x = Some a /\ f a = Some b.
Proof. destruct x as [a|]; simpl; [eauto | discriminate]. Qed.

Ltac unbind H :=
  repeat match type of H with
         | bind _ _ = Some _ =>
             let a := fresh "a" in
             let Ha := fresh "Ha" in
             apply bind_Some in H; destruct H as (a & Ha & H)
         end.

Lemma PrintRange_loop_same_format m : forall fuel Begin End os os',
  PrintRange_loop fuel m Begin End os = Some os' -> same_format os os'.
Proof.
  induction fuel as [|fuel IH]; intros b e os os' H; simpl in H;
    destruct (neq b e); try discriminate;
    try (injection H as <-; auto with fmt).
  unbind H. apply IH in H. rewrite put_element in H.
  eapply same_format_trans; [|exact H]. auto with fmt.
Qed.

Lemma PrintRange_same_format m Begin End os os' :
  PrintRange m Begin End os = Some os' -> same_format os os'.
Proof.
  unfold PrintRange. intros H. unbind H. injection H as <-.
  apply PrintRange_loop_same_format in Ha.
  eapply same_format_trans; [exact Ha|]. apply same_format_emit.
Qed.

Lemma FormatToColumns_loop_same_format m : forall fuel Begin End Others os r,
  FormatToColumns_loop fuel m Begin End Others os = Some r -> same_format os (snd r).
Proof.
  induction fuel as [|fuel IH]; intros b e Others os r H; simpl in H;
    destruct (neq b e); try discriminate;
    try (injection H as <-; auto with fmt).
  unbind H. apply IH in H.
  eapply same_format_trans; [|exact H].
  exact (call_same_format m (a :: a0) os).
Qed.

Lemma FormatToColumns_same_format m Begin End Others os os' :
  FormatToColumns m Begin End Others os = Some os' -> same_format os os'.
Proof.
  unfold FormatToColumns. intros H. unbind H. injection H as <-.
  now apply FormatToColumns_loop_same_format in Ha.
Qed.

Lemma FormatToRows_each_same_format m Begin End os it os' :
  FormatToRows_each m Begin End os it = Some os' -> same_format os os'.
Proof.
  unfold FormatToRows_each. intros H. unbind H.
  now apply PrintRange_same_format in H.
Qed.

Lemma FormatToRows_fold_same_format m Begin End Others : forall acc os',
  fold_left (fun acc NewBegin => os1 <- acc ;; FormatToRows_each m Begin End os1 NewBegin)
            Others acc = Some os' ->
  exists os0, acc = Some os0 /\ same_format os0 os'.
Proof.
  induction Others as [|it Others IH]; intros acc os' H; simpl in H.
  - exists os'. auto with fmt.
  - apply IH in H. destruct H as (os2 & H & Hf). unbind H.
    exists a. split; [assumption|].
    apply FormatToRows_each_same_format in H.
    eapply same_format_trans; eassumption.
Qed.

Lemma FormatToRows_same_format m Begin End Others os os' :
  FormatToRows m Begin End Others os = Some os' -> same_format os os'.
Proof.
  unfold FormatToRows. intros H. unbind H.
  apply FormatToRows_fold_same_format in H. destruct H as (os0 & E & Hf).
  injection E as <-. apply PrintRange_same_format in Ha.
  eapply same_format_trans; eassumption.
Qed.

Lemma FirstNElementsRows_same_format m N Begin Others os os' :
  FirstNElementsRows m N Begin Others os = Some os' -> same_format os os'.
Proof.
  unfold FirstNElementsRows. intros H. unbind H.
  now apply FormatToRows_same_format in H.
Qed.

(** *** The manager and its stream *)

Lemma update_same st r os : update st r os r = os.
Proof. unfold update. now rewrite Nat.eqb_refl. Qed.

Lemma update_other st r os k : k <> r -> update st r os k = st k.
Proof. unfold update. intros H. now rewrite (proj2 (Nat.eqb_neq k r) H). Qed.

Lemma dest_on_stream m f st : dest (m, on_stream m f st) = f (st (OutStream__ m)).
Proof. unfold dest, on_stream. simpl. apply update_same. Qed.

Lemma on_stream_opt_Some m f st st' :
  on_stream_opt m f st = Some st' ->
  exists os', f (st (OutStream__ m)) = Some os' /\ st' = update st (OutStream__ m) os'.
Proof.
  unfold on_stream_opt. intros H. unbind H. injection H as <-. eauto.
Qed.

(** No request rebinds the reference. *)
Lemma exec_OutStream q w w' :
  exec q w = Some w' -> OutStream__ (fst w') = OutStream__ (fst w).
Proof.
  destruct w as [m st].
  destruct q; simpl; intros H; unbind H; injection H as <-; reflexivity.
Qed.

Lemma run_OutStream qs : forall w w',
  run qs w = Some w' -> OutStream__ (fst w') = OutStream__ (fst w).
Proof.
  induction qs as [|q qs IH]; simpl; intros w w' H.
  - now injection H as <-.
  - unbind H. apply IH in H. apply exec_OutStream in Ha. congruence.
Qed.

(** A print request changes neither the members nor the directives of the
    stream. *)
Lemma exec_print q w w' :
  is_print q = true -> exec q w = Some w' ->
  fst w' = fst w /\ same_format (dest w) (dest w').
Proof.
  destruct w as [m st].
  destruct q; simpl; try discriminate; intros _ H.
  - injection H as <-. split; [reflexivity|].
    rewrite dest_on_stream. apply call_same_format.
  - unbind H. injection H as <-. apply on_stream_opt_Some in Ha.
    destruct Ha as (os' & Ha & ->). split; [reflexivity|].
    unfold dest. simpl. rewrite update_same. now apply PrintRange_same_format in Ha.
  - unbind H. injection H as <-. apply on_stream_opt_Some in Ha.
    destruct Ha as (os' & Ha & ->). split; [reflexivity|].
    unfold dest. simpl. rewrite update_same. now apply FormatToColumns_same_format in Ha.
  - unbind H. injection H as <-. apply on_stream_opt_Some in Ha.
    destruct Ha as (os' & Ha & ->). split; [reflexivity|].
    unfold dest. simpl. rewrite update_same. now apply FormatToRows_same_format in Ha.
  - unbind H. injection H as <-. apply on_stream_opt_Some in Ha.
    destruct Ha as (os' & Ha & ->). split; [reflexivity|].
    unfold dest. simpl. rewrite update_same. now apply FirstNElementsRows_same_format in Ha.
Qed.

(** The setters of the members leave the stream as it is. *)
Lemma exec_member_setter q w w' :
  match q with DoSetWidth _ | DoSetSeparator _ | DoSetEndOfLine _ => True | _ => False end ->
  exec q w = Some w' -> dest w' = dest w.
Proof.
  destruct w as [m st]. destruct q; simpl; try contradiction;
    intros _ H; injection H as <-; reflexivity.
Qed.

Lemma SetAlignment_on_cases a os :
  SetAlignment_on a os = with_adjust
    (if a =? 0 then adj_internal else if a >? 0 then adj_left else adj_right) os.
Proof.
  unfold SetAlignment_on. destruct (a =? 0); simpl; [reflexivity|].
  now destruct (a >? 0).
Qed.

Lemma SetFloatMode_on_cases f os :
  SetFloatMode_on f os = with_float
    (if f =? 0 then float_default else if f >? 0 then float_fixed else float_scientific) os.
Proof.
  unfold SetFloatMode_on. destruct (f =? 0); simpl; [reflexivity|].
  now destruct (f >? 0).
Qed.

(** Only [SetAlignment] changes the alignment of the destination. *)
Lemma exec_adjustfield q w w' :
  is_SetAlignment q = false -> exec q w = Some w' ->
  adjustfield (dest w') = adjustfield (dest w).
Proof.
  intros Hq H. destruct (is_print q) eqn:Hp.
  - destruct (exec_print q w w' Hp H) as (_ & _ & Ha & _). exact Ha.
  - destruct w as [m st]. destruct q; try discriminate; simpl in H;
      injection H as <-; try reflexivity.
    + unfold SetPrecision, dest. simpl. unfold on_stream. now rewrite update_same.
    + unfold SetFloatMode, dest. simpl. unfold on_stream.
      now rewrite update_same, SetFloatMode_on_cases.
Qed.

(** Only [SetPrecision] changes the precision of the destination. *)
Lemma exec_precision q w w' :
  is_SetPrecision q = false -> exec q w = Some w' ->
  precision (dest w') = precision (dest w).
Proof.
  intros Hq H. destruct (is_print q) eqn:Hp.
  - destruct (exec_print q w w' Hp H) as (_ & _ & _ & _ & Ha). exact Ha.
  - destruct w as [m st]. destruct q; try discriminate; simpl in H;
      injection H as <-; try reflexivity.
    + unfold SetAlignment, dest. simpl. unfold on_stream.
      now rewrite update_same, SetAlignment_on_cases.
    + unfold SetFloatMode, dest. simpl. unfold on_stream.
      now rewrite update_same, SetFloatMode_on_cases.
Qed.

Lemma run_adjustfield qs : forall w w',
  forallb (fun q => negb (is_SetAlignment q)) qs = true -> run qs w = Some w' ->
  adjustfield (dest w') = adjustfield (dest w).
Proof.
  induction qs as [|q qs IH]; simpl; intros w w' Hq H.
  - now injection H as <-.
  - apply andb_prop in Hq. destruct Hq as (Hq & Hqs). unbind H.
    rewrite (IH _ _ Hqs H).
    apply (exec_adjustfield q); [now destruct (is_SetAlignment q) | exact Ha].
Qed.

Lemma run_precision qs : forall w w',
  forallb (fun q => negb (is_SetPrecision q)) qs = true -> run qs w = Some w' ->
  precision (dest w') = precision (dest w).
Proof.
  induction qs as [|q qs IH]; simpl; intros w w' Hq H.
  - now injection H as <-.
  - apply andb_prop in Hq. destruct Hq as (Hq & Hqs). unbind H.
    rewrite (IH _ _ Hqs H).
    apply (exec_precision q); [now destruct (is_SetPrecision q) | exact Ha].
Qed.

(** *** No width is left pending *)

(** A stream with no field width pending has none after any request: every
    [setw] of the class is consumed by the insertion that follows it. *)
Lemma call_idle m vs os : width (call m vs os) = 0.
Proof.
  destruct vs as [|v vs]; [reflexivity|]. now rewrite call_emit.
Qed.

Lemma PrintRange_idle m Begin End os os' :
  PrintRange m Begin End os = Some os' -> width os' = 0.
Proof. unfold PrintRange. intros H. unbind H. now injection H as <-. Qed.

Lemma FormatToColumns_loop_idle m : forall fuel Begin End Others os r,
  width os = 0 ->
  FormatToColumns_loop fuel m Begin End Others os = Some r -> width (snd r) = 0.
Proof.
  induction fuel as [|fuel IH]; intros b e Others os r Hw H;
    cbn [FormatToColumns_loop] in H;
    destruct (neq b e); try discriminate;
    try (injection H as <-; exact Hw).
  unbind H. apply IH in H; [exact H | apply call_idle].
Qed.

Lemma FormatToRows_idle m Begin End Others os os' :
  FormatToRows m Begin End Others os = Some os' -> width os' = 0.
Proof.
  unfold FormatToRows. intros H. unbind H. apply PrintRange_idle in Ha.
  revert a Ha H. induction Others as [|it Others IH]; intros os1 Hw H.
  - simpl in H. now injection H as <-.
  - cbn [fold_left] in H.
    destruct (FormatToRows_fold_same_format _ _ _ _ _ _ H) as (os2 & E & _).
    rewrite E in H. apply (IH os2); [|exact H].
    cbn [bind] in E. unfold FormatToRows_each in E. unbind E.
    now apply PrintRange_idle in E.
Qed.

Lemma exec_idle q w w' :
  width (dest w) = 0 -> exec q w = Some w' -> width (dest w') = 0.
Proof.
  destruct w as [m st]. intros Hw.
  destruct q; simpl; intros H; unbind H; injection H as <-;
    try exact Hw;
    try (apply on_stream_opt_Some in Ha; destruct Ha as (os' & Ha & ->);
         unfold dest; simpl; rewrite update_same).
  - rewrite dest_on_stream. apply call_idle.
  - now apply PrintRange_idle in Ha.
  - unfold FormatToColumns in Ha. unbind Ha. injection Ha as <-.
    now apply FormatToColumns_loop_idle in Ha0.
  - now apply FormatToRows_idle in Ha.
  - unfold FirstNElementsRows in Ha. unbind Ha. now apply FormatToRows_idle in Ha.
  - unfold SetAlignment. rewrite dest_on_stream, SetAlignment_on_cases. exact Hw.
  - unfold SetPrecision. rewrite dest_on_stream. exact Hw.
  - unfold SetFloatMode. rewrite dest_on_stream, SetFloatMode_on_cases. exact Hw.
Qed.

Lemma run_idle qs : forall w w',
  width (dest w) = 0 -> run qs w = Some w' -> width (dest w') = 0.
Proof.
  induction qs as [|q qs IH]; simpl; intros w w' Hw H.
  - now injection H as <-.
  - unbind H. apply (IH a); [|exact H]. now apply (exec_idle q w).
Qed.

End OMFacts.

(* ------------------------------------------------------------------ *)
(** * The examples of the header *)

Module Examples.
Import Text Num Value Stream Iter OM Sample.

(** [O.FormatToColumns(Numbers.begin(), Numbers.end(), Floats.begin(), Words.begin());] *)
Example FormatToColumns_example :
  option_map buffer
    (FormatToColumns (fst O) (begin_ Numbers) (end_ Numbers)
       [begin_ Floats; begin_ Words] (dest O))
  = Some (lines ["1 1.1 Cat"; "2 2.1 Dog"; "3 3.1 Mouse"; "4 4.1 Cow"; "5 5.1 Salmon"]).
Proof. vm_compute. reflexivity. Qed.

(** [O.FormatToRows(...)]: every element is followed by the separator. *)
Example FormatToRows_example :
  option_map buffer
    (FormatToRows (fst O) (begin_ Numbers) (end_ Numbers)
       [begin_ Floats; begin_ Words] (dest O))
  = Some (lines ["1 2 3 4 5 "; "1.1 2.1 3.1 4.1 5.1 "; "Cat Dog Mouse Cow Salmon "]).
Proof. vm_compute. reflexivity. Qed.

(** [O.FirstNElementsRows(3, ...)] *)
Example FirstNElementsRows_example :
  option_map buffer
    (FirstNElementsRows (fst O) 3%N (begin_ Numbers)
       [begin_ Floats; begin_ Words] (dest O))
  = Some (lines ["1 2 3 "; "1.1 2.1 3.1 "; "Cat Dog Mouse "]).
Proof. vm_compute. reflexivity. Qed.

(** Asking for more elements than a sequence holds leaves the contract. *)
Example FirstNElementsRows_too_many :
  FirstNElementsRows (fst O) 6%N (begin_ Numbers) [begin_ Floats; begin_ Words] (dest O)
  = None.
Proof. vm_compute. reflexivity. Qed.

(** [O.SetWidth(5);] then [FormatToColumns]: fields of five characters,
    left-aligned. *)
Example SetWidth_example :
  option_map buffer
    (FormatToColumns O5 (begin_ Numbers) (end_ Numbers)
       [begin_ Floats; begin_ Words] (dest O))
  = Some (lines ["1     1.1   Cat  "; "2     2.1   Dog  "; "3     3.1   Mouse";
                 "4     4.1   Cow  "; "5     5.1   Salmon"]).
Proof. vm_compute. reflexivity. Qed.

(** [internal] alignment splits sign and digits. *)
Example internal_example :
  buffer (call O5 [VInt (-5); one_half] (internal (dest O)))
  = lines ["-   5   1.5"] /\
  buffer (call O5 [VInt (-5); one_half] (right (dest O)))
  = lines ["   -5   1.5"].
Proof. vm_compute. split; reflexivity. Qed.

End Examples.

(* ------------------------------------------------------------------ *)
(** * Lines are at least as long as their fields *)

Module WidthFacts.
Import Text TextFacts Num NumFacts Value Stream StreamFacts Iter IterFacts OM OMFacts.

Lemma len_concat_head sep x l : len x <= len (String.concat sep (x :: l)).
Proof.
  destruct l as [|y l]; [simpl; lia|].
  change (String.concat sep (x :: y :: l)) with (x ++ sep ++ String.concat sep (y :: l)).
  rewrite len_app. pose proof (len_nonneg (sep ++ String.concat sep (y :: l))). lia.
Qed.

Lemma len_joined_line_ge m os w v vs : w <= len (joined_line m os w (v :: vs)).
Proof.
  unfold joined_line. cbn [map]. rewrite len_app.
  pose proof (len_concat_head (Separator__ m) (field os w v) (map (field os w) vs)).
  pose proof (field_length os w v). pose proof (len_nonneg (EndOfLine__ m)). lia.
Qed.

Lemma len_range_line_ge m os w v vs : w <= len (range_line m os w (v :: vs)).
Proof.
  unfold range_line. cbn [map cat]. rewrite !len_app.
  pose proof (field_length os w v).
  pose proof (len_nonneg (Separator__ m)).
  pose proof (len_nonneg (cat (map (fun v0 => field os w v0 ++ Separator__ m) vs))).
  pose proof (len_nonneg (EndOfLine__ m)). lia.
Qed.

Lemma wrote_len os os' t : wrote os os' t -> len (buffer os') = len (buffer os) + len t.
Proof. unfold wrote. intros ->. apply len_app. Qed.

(** With a width that fits an [int], the stream is told the width the
    manager holds. *)
Lemma configured_width m :
  Z.of_N (Width__ m) <= INT_MAX -> int_of_size_t (Width__ m) = Z.of_N (Width__ m).
Proof. apply int_of_size_t_small. Qed.

(** One more than [INT_MAX] reaches the stream as [INT_MIN]. *)
Lemma width_wraps : int_of_size_t 2147483648%N = INT_MIN.
Proof. reflexivity. Qed.

End WidthFacts.

Module RowFacts.
Import Text TextFacts Num NumFacts Value Stream StreamFacts Iter IterFacts OM OMFacts.

(** On iterators with enough room the lambda of [FormatToRows] is
    [PrintRange] on the first [n] elements. *)
Lemma FormatToRows_fold_PrintRange m Begin End Others :
  valid_range Begin End -> Forall (room (pos End - pos Begin)) Others ->
  forall acc,
    fold_left (fun acc NewBegin => os' <- acc ;; FormatToRows_each m Begin End os' NewBegin)
              Others acc =
    fold_left (fun acc it => os1 <- acc ;; PrintRange m it (shift (pos End - pos Begin) it) os1)
              Others acc.
Proof.
  intros Hr. induction 1 as [|it Others Hit _ IH]; intros acc; [reflexivity|].
  cbn [fold_left]. rewrite IH. f_equal.
  destruct acc as [os1|]; [|reflexivity]. cbn [bind].
  unfold FormatToRows_each.
  rewrite (distance_range _ _ Hr). cbn [bind].
  now rewrite (advance_room _ _ Hit).
Qed.

Lemma row_lines_length m os first others :
  List.length (row_lines m os first others) = S (List.length others).
Proof. unfold row_lines. cbn [List.length]. now rewrite length_map. Qed.

(** With no element to print and no width pending, every line is the
    end-of-line string alone. *)
Lemma row_lines_empty m os others :
  width os = 0 ->
  row_lines m os [] others = List.repeat (EndOfLine__ m) (S (List.length others)).
Proof.
  intros Hw. unfold row_lines. cbn [range_text List.length List.repeat].
  rewrite Hw, field_string_0 by lia. f_equal.
  induction others as [|o others IH]; [reflexivity|].
  cbn [map List.length List.repeat]. rewrite IH.
  f_equal. cbn [firstn range_text]. apply field_string_0. simpl. lia.
Qed.

Lemma contains_self t : contains t t.
Proof. exists "", "". now rewrite app_nil_r. Qed.

Lemma contains_app_r t a b : contains t a -> contains t (a ++ b).
Proof.
  intros (pre & post & ->). exists pre, (post ++ b). now rewrite !app_assoc.
Qed.

(** A padded string still holds the string. *)
Lemma contains_field_string os w s : contains s (field_string os w s).
Proof.
  unfold field_string, pad. simpl.
  set (f := replicate (fill os) (Z.to_nat (w - len s))).
  destruct (adjustfield os).
  - exists f, "". now rewrite app_nil_r.
  - exists "", f. reflexivity.
  - exists f, "". now rewrite app_nil_r.
  - exists f, "". now rewrite app_nil_r.
Qed.

End RowFacts.

Module DirectiveFacts.
Import Text TextFacts Num NumFacts Value Stream StreamFacts Iter IterFacts OM OMFacts.

Lemma dest_SetAlignment a w : dest (SetAlignment a w) = SetAlignment_on a (dest w).
Proof. destruct w as [m st]. apply dest_on_stream. Qed.

Lemma dest_SetPrecision p w : dest (SetPrecision p w) = SetPrecision_on p (dest w).
Proof. destruct w as [m st]. apply dest_on_stream. Qed.

Lemma dest_SetFloatMode f w : dest (SetFloatMode f w) = SetFloatMode_on f (dest w).
Proof. destruct w as [m st]. apply dest_on_stream. Qed.

Lemma construct_left r Separator EndOfLine st :
  adjustfield (dest (construct r Separator EndOfLine st)) = adj_left.
Proof. unfold construct. now rewrite dest_SetAlignment. Qed.

Lemma construct_members r Separator EndOfLine st :
  fst (construct r Separator EndOfLine st) = Manager r Separator EndOfLine 0%N.
Proof. reflexivity. Qed.

(** [SetPrecision] stores its argument, converted to [int], as the
    precision of the destination, where it stays until the next
    [SetPrecision]. *)
Lemma SetPrecision_persists p w qs w' :
  forallb (fun q => negb (is_SetPrecision q)) qs = true ->
  run qs (SetPrecision p w) = Some w' ->
  precision (dest w') = int_of_size_t p.
Proof.
  intros Hq H. rewrite (run_precision qs _ _ Hq H).
  now rewrite dest_SetPrecision.
Qed.

Lemma substring_length s : forall i k,
  (i + k <= String.length s)%nat -> String.length (substring i k s) = k.
Proof.
  induction s as [|c s IH]; intros i k H; simpl in H.
  - assert (i = O) by lia. assert (k = O) by lia. now subst.
  - destruct i as [|i]; simpl.
    + destruct k as [|k]; simpl; [reflexivity|]. f_equal. apply IH. lia.
    + apply IH. lia.
Qed.

Lemma lpad0_len k s : len (lpad0 k s) = Z.max k (len s).
Proof.
  unfold lpad0. rewrite len_app. unfold len at 1. rewrite length_replicate.
  pose proof (len_nonneg s). lia.
Qed.

(** In fixed notation the precision counts the digits after the point. *)
Lemma fixed_digits_after_point os d :
  floatfield os = float_fixed -> 0 < precision os ->
  exists ip fp,
    float_body os d = ip ++ "." ++ fp /\ len fp = precision os.
Proof.
  intros Hf Hp. unfold float_body, float_precision. rewrite Hf.
  replace (precision os <? 0) with false by (symmetry; apply Z.ltb_ge; lia).
  set (p := precision os) in *. set (m := Z.of_N (mant d)).
  set (t := conv_fixed m (exp10 d) p).
  assert (L : len (frac_part t) = p).
  { subst t. unfold conv_fixed. cbn [frac_part].
    set (ds := lpad0 (p + 1) (digits (scaled m (exp10 d) p))).
    pose proof (lpad0_len (p + 1) (digits (scaled m (exp10 d) p))) as Hl.
    fold ds in Hl. unfold len in Hl |- *.
    rewrite substring_length by lia. lia. }
  exists (int_part t), (frac_part t). split; [|exact L].
  unfold assemble. replace (suffix t) with "" by reflexivity.
  destruct (frac_part t) as [|c r] eqn:E.
  - unfold len in L. simpl in L. lia.
  - now rewrite app_nil_r.
Qed.

End DirectiveFacts.

(* ------------------------------------------------------------------ *)
(** * The properties of the specification *)

Import Text TextFacts Num NumFacts Value Stream StreamFacts Iter IterFacts.
Import OM OMFacts WidthFacts.

(** ** The zero-argument print *)

(** C8, as stated, fails: [operator()()] is a formatted insertion of
    [EndOfLine__], so a field width the caller left armed on the stream pads
    it.  On a stream armed with width 3 the default manager writes the
    newline and two fill characters. *)
Lemma call_void_armed_counterexample :
  buffer (call_void (fst Sample.O_armed) (dest Sample.O_armed)) = newline ++ "  " /\
  ~ wrote (dest Sample.O_armed)
          (call_void (fst Sample.O_armed) (dest Sample.O_armed))
          (EndOfLine__ (fst Sample.O_armed)).
Proof.
  split; [reflexivity|].
  unfold wrote. vm_compute. discriminate.
Qed.

(** C8, amended: the zero-argument print inserts the end-of-line string
    alone; the separator and the minimum width of the manager play no part,
    and on a stream with no field width pending the text written is exactly
    the end-of-line string, the persistent directives being left as they
    were. *)
Theorem call_void_writes_EndOfLine (m : OutputManager) (os : ostream) :
  (forall Width Separator,
      call_void (SetSeparator Separator (SetWidth Width m)) os = call_void m os) /\
  (width os = 0 ->
   wrote os (call_void m os) (EndOfLine__ m) /\
   same_format os (call_void m os) /\
   width (call_void m os) = 0).
Proof.
  split; [reflexivity|].
  intros Hw. rewrite call_void_emit, Hw, field_string_0 by lia.
  repeat split.
Qed.

Lemma call_void_writes_EndOfLine_witness :
  width (dest Sample.O) = 0 /\
  wrote (dest Sample.O) (call_void (fst Sample.O) (dest Sample.O)) newline.
Proof.
  split; [reflexivity|].
  apply (proj2 (call_void_writes_EndOfLine (fst Sample.O) (dest Sample.O))).
  reflexivity.
Defined.

(** ** The variadic print *)

(** C4, on the code: [O.SetWidth(2147483648); O("a");].  [Width__] is a
    [size_t] and [std::setw] takes an [int], so the width reaches the stream
    as [INT_MIN] and nothing is padded: two characters are written, not ["a"]
    in a field of 2147483648 followed by the end-of-line string. *)
Lemma call_wide_width_unpadded :
  buffer (call Sample.O_wide [Sample.a] (dest Sample.O)) = "a" ++ newline /\
  ~ wrote (dest Sample.O) (call Sample.O_wide [Sample.a] (dest Sample.O))
          (joined_line Sample.O_wide (dest Sample.O)
             (Z.of_N (Width__ Sample.O_wide)) [Sample.a]).
Proof.
  assert (E : buffer (call Sample.O_wide [Sample.a] (dest Sample.O)) = "a" ++ newline)
    by (vm_compute; reflexivity).
  split; [exact E|].
  intros H. apply wrote_len in H. rewrite E in H.
  pose proof (len_joined_line_ge Sample.O_wide (dest Sample.O)
                (Z.of_N (Width__ Sample.O_wide)) Sample.a []) as L.
  change (Z.of_N (Width__ Sample.O_wide)) with 2147483648 in *.
  change (len ("a" ++ newline)) with 2 in H.
  change (len (buffer (dest Sample.O))) with 0 in H.
  lia.
Qed.

(** X15: for a minimum width that fits an [int] (at most 2147483647),
    printing [v1, ..., vn], [n >= 1], writes [v1] as a field of that width,
    then the separator, then applies the same rule to the rest; a single
    value is written as a field followed by the end-of-line string, with no
    separator.  So the whole line is the fields joined by the separator and
    closed by the end-of-line string, and with width 0 [print(a, b, c)]
    writes [a + sep + b + sep + c + eol]. *)
Theorem call_joined (m : OutputManager) (os : ostream) :
  Z.of_N (Width__ m) <= INT_MAX ->
  let w := Z.of_N (Width__ m) in
  (forall v, wrote os (call m [v] os) (field os w v ++ EndOfLine__ m)) /\
  (forall v u vs,
      exists os1,
        wrote os os1 (field os w v ++ Separator__ m) /\
        same_format os os1 /\
        call m (v :: u :: vs) os = call m (u :: vs) os1) /\
  (forall v vs,
      wrote os (call m (v :: vs) os) (joined_line m os w (v :: vs)) /\
      same_format os (call m (v :: vs) os)) /\
  (forall a b c,
      Width__ m = 0%N ->
      wrote os (call m [a; b; c] os)
        (text os a ++ Separator__ m ++ text os b ++ Separator__ m ++
         text os c ++ EndOfLine__ m)).
Proof.
  intros Hw w. subst w. rewrite <- (configured_width m Hw).
  split; [|split; [|split]].
  - intros v. change (call m [v] os) with (call_one m v os).
    rewrite call_one_emit. apply wrote_emit.
  - intros v u vs.
    exists (emit (field os (int_of_size_t (Width__ m)) v ++ Separator__ m) os).
    split; [apply wrote_emit|]. split; [apply same_format_emit|].
    change (call m (v :: u :: vs) os)
      with (call m (u :: vs)
              (put_string (Separator__ m) (put v (setw (int_of_size_t (Width__ m)) os)))).
    now rewrite put_element.
  - intros v vs. rewrite call_emit.
    split; [apply wrote_emit | apply same_format_emit].
  - intros a b c H0. rewrite call_emit. unfold wrote, joined_line.
    rewrite buffer_emit, H0. change (int_of_size_t 0%N) with 0.
    change (String.concat (Separator__ m) (map (field os 0) [a; b; c]))
      with (field os 0 a ++ Separator__ m ++ field os 0 b ++ Separator__ m ++ field os 0 c).
    rewrite !field_0 by lia. now rewrite !app_assoc.
Qed.

Lemma call_joined_witness :
  Z.of_N (Width__ Sample.O5) <= INT_MAX /\
  buffer (call Sample.O5 [VInt 1; Sample.one_half; VStr "Cat"] (dest Sample.O))
  = Sample.lines ["1     1.5   Cat  "].
Proof.
  split; [unfold INT_MAX; simpl; lia|].
  pose proof (call_joined Sample.O5 (dest Sample.O)
                ltac:(unfold INT_MAX; simpl; lia)) as (_ & _ & H & _).
  destruct (H (VInt 1) [Sample.one_half; VStr "Cat"]) as (Hw & _).
  unfold wrote in Hw. rewrite Hw. reflexivity.
Defined.

(** ** Printing a range *)

(** C3, as stated, fails on two inputs.  With a minimum width of 2147483648
    the width reaches the stream negative and ["a"] is written unpadded; and
    on an empty range the end-of-line string is the first insertion, so a
    width of 3 the caller left armed pads it. *)
Lemma PrintRange_counterexample :
  (option_map buffer
     (PrintRange Sample.O_wide (begin_ [Sample.a]) (end_ [Sample.a]) (dest Sample.O))
   = Some ("a " ++ newline) /\
   ~ exists os',
       PrintRange Sample.O_wide (begin_ [Sample.a]) (end_ [Sample.a]) (dest Sample.O)
       = Some os' /\
       wrote (dest Sample.O) os'
         (range_line Sample.O_wide (dest Sample.O)
            (Z.of_N (Width__ Sample.O_wide)) [Sample.a])) /\
  (option_map buffer
     (PrintRange (fst Sample.O_armed) (begin_ []) (end_ []) (dest Sample.O_armed))
   = Some (newline ++ "  ") /\
   ~ exists os',
       PrintRange (fst Sample.O_armed) (begin_ []) (end_ []) (dest Sample.O_armed)
       = Some os' /\
       wrote (dest Sample.O_armed) os'
         (range_line (fst Sample.O_armed) (dest Sample.O_armed)
            (Z.of_N (Width__ (fst Sample.O_armed))) [])).
Proof.
  split; (split; [vm_compute; reflexivity|]).
  - intros (os' & Hrun & H).
    assert (E : buffer os' = "a " ++ newline).
    { assert (R : option_map buffer
                    (PrintRange Sample.O_wide (begin_ [Sample.a]) (end_ [Sample.a])
                       (dest Sample.O)) = Some ("a " ++ newline))
        by (vm_compute; reflexivity).
      rewrite Hrun in R. now injection R. }
    apply wrote_len in H. rewrite E in H.
    pose proof (len_range_line_ge Sample.O_wide (dest Sample.O)
                  (Z.of_N (Width__ Sample.O_wide)) Sample.a []) as L.
    change (Z.of_N (Width__ Sample.O_wide)) with 2147483648 in *.
    change (len ("a " ++ newline)) with 3 in H.
    change (len (buffer (dest Sample.O))) with 0 in H.
    lia.
  - intros (os' & Hrun & H). vm_compute in Hrun. injection Hrun as <-.
    unfold wrote in H. vm_compute in H. discriminate.
Qed.

(** C3, amended: for a range of a sequence [S], a minimum width that fits
    an [int] (at most 2147483647) and a stream with no field width pending
    (or a non-empty [S]), [PrintRange] writes every element of [S] as a
    field of that width followed by the separator, the last one included,
    and then the end-of-line string once; with the default separator and
    end-of-line that is [S[0] + " " + ... + S[n-1] + " " + "\n"]. *)
Theorem PrintRange_writes (m : OutputManager) (Begin End : iterator) (os : ostream) :
  valid_range Begin End ->
  Z.of_N (Width__ m) <= INT_MAX ->
  width os = 0 \/ elements Begin End <> [] ->
  exists os',
    PrintRange m Begin End os = Some os' /\
    wrote os os'
      (cat (map (fun v => field os (Z.of_N (Width__ m)) v ++ Separator__ m)
                (elements Begin End))
       ++ EndOfLine__ m) /\
    same_format os os' /\
    width os' = 0.
Proof.
  intros Hr Hw Hidle. rewrite <- (configured_width m Hw).
  exists (emit (range_text m os (elements Begin End)) os).
  split; [now apply PrintRange_emit|].
  repeat split.
  unfold wrote. rewrite buffer_emit. f_equal.
  destruct (elements Begin End) as [|v vs]; [|reflexivity].
  destruct Hidle as [H0|Hne]; [|congruence].
  cbn [range_text map cat]. rewrite H0. now rewrite field_string_0 by lia.
Qed.

Lemma PrintRange_writes_witness :
  valid_range (begin_ Sample.Words) (end_ Sample.Words) /\
  Z.of_N (Width__ (fst Sample.O)) <= INT_MAX /\
  width (dest Sample.O) = 0 /\
  option_map buffer
    (PrintRange (fst Sample.O) (begin_ Sample.Words) (end_ Sample.Words) (dest Sample.O))
  = Some (Sample.lines ["Cat Dog Mouse Cow Salmon "]).
Proof.
  split; [apply valid_range_begin_end|].
  split; [unfold INT_MAX; simpl; lia|].
  split; [reflexivity|].
  destruct (PrintRange_writes (fst Sample.O) (begin_ Sample.Words) (end_ Sample.Words)
              (dest Sample.O) (valid_range_begin_end Sample.Words)
              ltac:(unfold INT_MAX; simpl; lia) (or_introl eq_refl))
    as (os' & -> & Hw & _).
  simpl option_map. unfold wrote in Hw. rewrite Hw. reflexivity.
Defined.

(** ** Columns *)

(** C1, on the code: [O.SetWidth(2147483648);] then [FormatToColumns] on
    the one-element sequence ["a"].  The width reaches [std::setw] converted
    to [int], that is as [INT_MIN], so the row is written in two
    characters, not as a field of 2147483648 followed by the end-of-line
    string. *)
Lemma FormatToColumns_wide_width_unpadded :
  option_map buffer
    (FormatToColumns Sample.O_wide (begin_ [Sample.a]) (end_ [Sample.a]) [] (dest Sample.O))
  = Some ("a" ++ newline) /\
  ~ exists os',
      FormatToColumns Sample.O_wide (begin_ [Sample.a]) (end_ [Sample.a]) [] (dest Sample.O)
      = Some os' /\
      wrote (dest Sample.O) os'
        (cat (map (joined_line Sample.O_wide (dest Sample.O)
                     (Z.of_N (Width__ Sample.O_wide)))
                  (rows [Sample.a] []))).
Proof.
  assert (R : option_map buffer
                (FormatToColumns Sample.O_wide (begin_ [Sample.a]) (end_ [Sample.a]) []
                   (dest Sample.O)) = Some ("a" ++ newline))
    by (vm_compute; reflexivity).
  split; [exact R|].
  intros (os' & Hrun & H). rewrite Hrun in R. injection R as E.
  apply wrote_len in H.
  replace (len (buffer os')) with 2 in H by (rewrite E; reflexivity).
  change (rows [Sample.a] []) with [[Sample.a]] in H. cbn [map cat] in H.
  rewrite len_app in H.
  pose proof (len_joined_line_ge Sample.O_wide (dest Sample.O)
                (Z.of_N (Width__ Sample.O_wide)) Sample.a []) as L.
  change (Z.of_N (Width__ Sample.O_wide)) with 2147483648 in *.
  change (len (buffer (dest Sample.O))) with 0 in H.
  change (len "") with 0 in H.
  lia.
Qed.

(** X16: for a first range of [n] elements, other iterators whose
    sequences hold at least [n] elements from them on, and a minimum width
    that fits an [int] (at most 2147483647), [FormatToColumns] writes
    exactly [n] lines; line [i] holds element [i] of the first range, then
    element [i] of each other sequence in argument order, each as a field of
    the minimum width, joined by the separator and closed by the end-of-line
    string; and after [i] rows every other iterator has moved [i] places,
    one per row. *)
Theorem FormatToColumns_rows (m : OutputManager) (Begin End : iterator)
    (Others : list iterator) (os : ostream) :
  valid_range Begin End ->
  Forall (room (pos End - pos Begin)) Others ->
  Z.of_N (Width__ m) <= INT_MAX ->
  let n := (pos End - pos Begin)%nat in
  let first := elements Begin End in
  let line := joined_line m os (Z.of_N (Width__ m)) in
  let table := map line (rows first (map remaining Others)) in
  exists os',
    FormatToColumns m Begin End Others os = Some os' /\
    wrote os os' (cat table) /\
    List.length table = n /\
    (forall i, (i < n)%nat ->
       nth i table "" =
       line (nth i first default_value
               :: map (fun it => nth i (remaining it) default_value) Others)) /\
    (forall i, (i <= n)%nat ->
       exists osi,
         FormatToColumns_loop (List.length (remaining Begin)) m
           Begin (shift i Begin) Others os
         = Some (map (shift i) Others, osi)) /\
    same_format os os'.
Proof.
  intros Hr HO Hw n first line table.
  assert (Hn : List.length first = n) by now apply length_elements.
  exists (emit_lines table os).
  subst table line. rewrite <- (configured_width m Hw).
  split; [now apply FormatToColumns_lines|].
  split; [apply emit_lines_wrote|].
  split; [now rewrite length_map, length_rows|].
  split; [|split; [|apply emit_lines_same_format]].
  - intros i Hi.
    rewrite (nth_indep _ "" (joined_line m os (int_of_size_t (Width__ m)) []))
      by (rewrite length_map, length_rows; lia).
    rewrite map_nth, nth_rows by lia.
    unfold row. now rewrite map_map.
  - intros i Hi. destruct Hr as (Hs & H1 & H2).
    eexists. apply (FormatToColumns_loop_lines m i).
    + unfold shift. reflexivity.
    + unfold room. subst n. lia.
    + rewrite length_remaining. subst n. lia.
    + apply (Forall_room_weaken n); [exact Hi | exact HO].
Qed.

Lemma FormatToColumns_rows_witness :
  valid_range (begin_ Sample.Numbers) (end_ Sample.Numbers) /\
  Forall (room 5) [begin_ Sample.Floats; begin_ Sample.Words] /\
  Z.of_N (Width__ (fst Sample.O)) <= INT_MAX /\
  option_map buffer
    (FormatToColumns (fst Sample.O) (begin_ Sample.Numbers) (end_ Sample.Numbers)
       [begin_ Sample.Floats; begin_ Sample.Words] (dest Sample.O))
  = Some (Sample.lines ["1 1.1 Cat"; "2 2.1 Dog"; "3 3.1 Mouse"; "4 4.1 Cow";
                        "5 5.1 Salmon"]).
Proof.
  assert (HO : Forall (room 5) [begin_ Sample.Floats; begin_ Sample.Words]).
  { repeat constructor. }
  split; [apply valid_range_begin_end|].
  split; [exact HO|].
  split; [unfold INT_MAX; simpl; lia|].
  destruct (FormatToColumns_rows (fst Sample.O) (begin_ Sample.Numbers)
              (end_ Sample.Numbers) [begin_ Sample.Floats; begin_ Sample.Words]
              (dest Sample.O) (valid_range_begin_end Sample.Numbers) HO
              ltac:(unfold INT_MAX; simpl; lia))
    as (os' & -> & Hw & _).
  simpl option_map. unfold wrote in Hw. rewrite Hw. reflexivity.
Defined.

(** ** Rows *)

Import RowFacts.

(** C2: for a first range of [n] elements and [k] other iterators whose
    sequences hold at least [n] elements from them on, [FormatToRows] is
    [PrintRange] on the first range followed, for each other iterator in
    argument order, by [PrintRange] on its first [n] elements; it writes
    exactly [1 + k] lines, one per sequence, each the text [PrintRange]
    writes for the [n] elements of that sequence. *)
Theorem FormatToRows_one_line_per_sequence (m : OutputManager) (Begin End : iterator)
    (Others : list iterator) (os : ostream) :
  valid_range Begin End ->
  Forall (room (pos End - pos Begin)) Others ->
  let n := (pos End - pos Begin)%nat in
  let table := row_lines m os (elements Begin End) (map remaining Others) in
  exists os',
    FormatToRows m Begin End Others os = Some os' /\
    FormatToRows m Begin End Others os =
      fold_left (fun acc it => os1 <- acc ;; PrintRange m it (shift n it) os1)
                Others (PrintRange m Begin End os) /\
    wrote os os' (cat table) /\
    List.length table = (1 + List.length Others)%nat /\
    List.length (elements Begin End) = n /\
    PrintRange m Begin End os = Some (emit (nth 0 table "") os) /\
    (forall j it os1,
        nth_error Others j = Some it -> same_format os os1 -> width os1 = 0 ->
        elements it (shift n it) = firstn n (remaining it) /\
        List.length (elements it (shift n it)) = n /\
        exists t, nth_error table (S j) = Some t /\
                  PrintRange m it (shift n it) os1 = Some (emit t os1)) /\
    same_format os os'.
Proof.
  intros Hr HO n table.
  exists (emit_lines table os). subst table.
  split; [now apply FormatToRows_lines|].
  split.
  { unfold FormatToRows. rewrite (PrintRange_emit _ _ _ _ Hr). cbn [bind].
    now apply FormatToRows_fold_PrintRange. }
  split; [apply emit_lines_wrote|].
  split; [now rewrite row_lines_length, length_map|].
  split; [now apply length_elements|].
  split; [now apply PrintRange_emit|].
  split; [|apply emit_lines_same_format].
  intros j it os1 Hj Hf Hw.
  assert (Hit : room n it).
  { rewrite Forall_forall in HO. apply HO. eapply nth_error_In. exact Hj. }
  split; [apply elements_shift|].
  split.
  { rewrite length_elements by now apply valid_range_shift.
    unfold shift. simpl. lia. }
  exists (range_text m (with_width 0 os) (firstn n (remaining it))). split.
  - unfold row_lines. cbn [nth_error].
    rewrite nth_error_map, nth_error_map, Hj. cbn [option_map].
    now rewrite (length_elements _ _ Hr).
  - rewrite PrintRange_emit by now apply valid_range_shift.
    rewrite elements_shift. do 2 f_equal.
    apply range_text_same; [|exact Hw].
    apply (same_format_trans _ os); [repeat split | exact Hf].
Qed.

Lemma FormatToRows_one_line_per_sequence_witness :
  valid_range (begin_ Sample.Numbers) (end_ Sample.Numbers) /\
  Forall (room 5) [begin_ Sample.Floats; begin_ Sample.Words] /\
  option_map buffer
    (FormatToRows (fst Sample.O) (begin_ Sample.Numbers) (end_ Sample.Numbers)
       [begin_ Sample.Floats; begin_ Sample.Words] (dest Sample.O))
  = Some (Sample.lines ["1 2 3 4 5 "; "1.1 2.1 3.1 4.1 5.1 "; "Cat Dog Mouse Cow Salmon "]).
Proof.
  assert (HO : Forall (room 5) [begin_ Sample.Floats; begin_ Sample.Words]).
  { repeat constructor. }
  split; [apply valid_range_begin_end|].
  split; [exact HO|].
  destruct (FormatToRows_one_line_per_sequence (fst Sample.O) (begin_ Sample.Numbers)
              (end_ Sample.Numbers) [begin_ Sample.Floats; begin_ Sample.Words]
              (dest Sample.O) (valid_range_begin_end Sample.Numbers) HO)
    as (os' & -> & _ & Hw & _).
  simpl option_map. unfold wrote in Hw. rewrite Hw. reflexivity.
Defined.

(** C6, as stated, fails for [n = 0]: the first line is then the
    end-of-line string inserted with whatever width is pending, and a width
    of 3 the caller left armed pads it. *)
Lemma FirstNElementsRows_armed_counterexample :
  option_map buffer
    (FirstNElementsRows (fst Sample.O_armed) 0%N (begin_ Sample.Numbers) []
       (dest Sample.O_armed))
  = Some (newline ++ "  ") /\
  ~ exists os',
      FirstNElementsRows (fst Sample.O_armed) 0%N (begin_ Sample.Numbers) []
        (dest Sample.O_armed) = Some os' /\
      wrote (dest Sample.O_armed) os'
        (cat (List.repeat (EndOfLine__ (fst Sample.O_armed)) 1)).
Proof.
  split; [vm_compute; reflexivity|].
  intros (os' & Hrun & H). vm_compute in Hrun. injection Hrun as <-.
  unfold wrote in H. vm_compute in H. discriminate.
Qed.

(** C6, amended: for iterators whose sequences hold at least [n] elements
    from them on, [FirstNElementsRows] takes [End] as [Begin] advanced by
    [n] and is [FormatToRows] on that range, so each line holds the first
    [n] elements of its sequence; for [n = 0], on a stream with no field
    width pending, it writes one line per sequence, each the end-of-line
    string alone. *)
Theorem FirstNElementsRows_truncates (m : OutputManager) (N : size_t) (Begin : iterator)
    (Others : list iterator) (os : ostream) :
  room (N.to_nat N) Begin ->
  Forall (room (N.to_nat N)) Others ->
  let n := N.to_nat N in
  advance Begin n = Some (shift n Begin) /\
  FirstNElementsRows m N Begin Others os = FormatToRows m Begin (shift n Begin) Others os /\
  (exists os',
      FirstNElementsRows m N Begin Others os = Some os' /\
      wrote os os'
        (cat (range_text m os (firstn n (remaining Begin))
                :: map (fun it => range_text m (with_width 0 os) (firstn n (remaining it)))
                       Others))) /\
  (n = O -> width os = 0 ->
   exists os',
     FirstNElementsRows m N Begin Others os = Some os' /\
     wrote os os' (cat (List.repeat (EndOfLine__ m) (1 + List.length Others)))).
Proof.
  intros HB HO n.
  assert (Hr : valid_range Begin (shift n Begin)) by now apply valid_range_shift.
  assert (Hd : (pos (shift n Begin) - pos Begin)%nat = n) by (unfold shift; simpl; lia).
  assert (Hrun : FirstNElementsRows m N Begin Others os =
                 Some (emit_lines (row_lines m os (firstn n (remaining Begin))
                                     (map remaining Others)) os)).
  { rewrite FirstNElementsRows_unfold by exact HB. fold n.
    rewrite FormatToRows_lines; [|exact Hr|now rewrite Hd].
    now rewrite elements_shift. }
  split; [now apply advance_room|].
  split; [now apply FirstNElementsRows_unfold|].
  split.
  - assert (Hl : List.length (firstn n (remaining Begin)) = n).
    { rewrite <- elements_shift, length_elements by exact Hr. exact Hd. }
    unfold row_lines in Hrun. rewrite Hl, map_map in Hrun.
    eexists. split; [exact Hrun|]. apply emit_lines_wrote.
  - intros Hn Hw. eexists. split; [exact Hrun|].
    rewrite Hn. cbn [firstn]. rewrite row_lines_empty by exact Hw.
    rewrite length_map. apply emit_lines_wrote.
Qed.

Lemma FirstNElementsRows_truncates_witness :
  room (N.to_nat 3) (begin_ Sample.Numbers) /\
  Forall (room (N.to_nat 3)) [begin_ Sample.Floats; begin_ Sample.Words] /\
  option_map buffer
    (FirstNElementsRows (fst Sample.O) 3%N (begin_ Sample.Numbers)
       [begin_ Sample.Floats; begin_ Sample.Words] (dest Sample.O))
  = Some (Sample.lines ["1 2 3 "; "1.1 2.1 3.1 "; "Cat Dog Mouse "]).
Proof.
  assert (HB : room (N.to_nat 3) (begin_ Sample.Numbers)).
  { unfold room. simpl. lia. }
  assert (HO : Forall (room (N.to_nat 3)) [begin_ Sample.Floats; begin_ Sample.Words]).
  { repeat constructor; unfold room; simpl; lia. }
  split; [exact HB|]. split; [exact HO|].
  destruct (FirstNElementsRows_truncates (fst Sample.O) 3%N (begin_ Sample.Numbers)
              [begin_ Sample.Floats; begin_ Sample.Words] (dest Sample.O) HB HO)
    as (_ & _ & (os' & -> & Hw) & _).
  simpl option_map. unfold wrote in Hw. rewrite Hw. reflexivity.
Defined.

(** ** An empty first range *)

(** C10: when [Begin == End], [FormatToColumns] leaves the stream as it
    found it, whatever the other iterators, writing nothing, not even the
    end-of-line string; [PrintRange], and [FormatToRows] on valid other
    iterators, still write text that holds the end-of-line string. *)
Theorem empty_first_range (m : OutputManager) (Begin End : iterator)
    (Others : list iterator) (os : ostream) :
  valid_range Begin End ->
  pos End = pos Begin ->
  FormatToColumns m Begin End Others os = Some os /\
  wrote os os "" /\
  (exists os' t,
      PrintRange m Begin End os = Some os' /\
      wrote os os' t /\ contains (EndOfLine__ m) t) /\
  (Forall valid Others ->
   exists os' t,
     FormatToRows m Begin End Others os = Some os' /\
     wrote os os' t /\ contains (EndOfLine__ m) t).
Proof.
  intros Hr He.
  assert (Hel : elements Begin End = []).
  { unfold elements. rewrite He, Nat.sub_diag. reflexivity. }
  split.
  { unfold FormatToColumns.
    destruct (List.length (remaining Begin)); simpl; unfold neq;
      rewrite He, Nat.eqb_refl; reflexivity. }
  split; [apply wrote_nothing|].
  split.
  - exists (emit (range_text m os (elements Begin End)) os),
           (range_text m os (elements Begin End)).
    split; [now apply PrintRange_emit|]. split; [apply wrote_emit|].
    rewrite Hel. apply contains_field_string.
  - intros HO.
    assert (HO' : Forall (room (pos End - pos Begin)) Others).
    { rewrite He, Nat.sub_diag. revert HO. apply Forall_impl. intros it. apply room_0. }
    eexists. eexists. split; [now apply FormatToRows_lines|].
    split; [apply emit_lines_wrote|].
    unfold row_lines. cbn [cat]. apply contains_app_r.
    rewrite Hel. apply contains_field_string.
Qed.

Lemma empty_first_range_witness :
  valid_range (begin_ []) (end_ []) /\
  FormatToColumns (fst Sample.O) (begin_ []) (end_ [])
    [begin_ Sample.Floats; begin_ Sample.Words] (dest Sample.O)
  = Some (dest Sample.O).
Proof.
  split; [apply valid_range_begin_end|].
  apply (empty_first_range (fst Sample.O) (begin_ []) (end_ [])
           [begin_ Sample.Floats; begin_ Sample.Words] (dest Sample.O)
           (valid_range_begin_end []) eq_refl).
Defined.

(** ** Directives on the destination *)

Import DirectiveFacts.

(** C7: [SetAlignment(mode)] sets [internal] when [mode] is 0, [left] when
    it is positive and [right] when it is negative, on the destination and
    at once, without writing; the alignment stays until the next
    [SetAlignment], across print calls and the other setters.  Under
    [internal] the fill goes between the sign and the rest of the text, under
    [left] after the text, under [right] before it.  Each of the four
    constructors leaves the destination left-aligned. *)
Theorem SetAlignment_directive (Alignment : Z) (w : world) :
  fst (SetAlignment Alignment w) = fst w /\
  buffer (dest (SetAlignment Alignment w)) = buffer (dest w) /\
  (Alignment = 0 -> adjustfield (dest (SetAlignment Alignment w)) = adj_internal) /\
  (Alignment > 0 -> adjustfield (dest (SetAlignment Alignment w)) = adj_left) /\
  (Alignment < 0 -> adjustfield (dest (SetAlignment Alignment w)) = adj_right) /\
  (forall qs w',
      forallb (fun q => negb (is_SetAlignment q)) qs = true ->
      run qs (SetAlignment Alignment w) = Some w' ->
      adjustfield (dest w') = adjustfield (dest (SetAlignment Alignment w))) /\
  (forall os k v,
      (adjustfield os = adj_internal ->
       field os k v = fst (render os v)
                      ++ replicate (fill os) (Z.to_nat (k - len (text os v)))
                      ++ snd (render os v)) /\
      (adjustfield os = adj_left ->
       field os k v = text os v ++ replicate (fill os) (Z.to_nat (k - len (text os v)))) /\
      (adjustfield os = adj_right ->
       field os k v = replicate (fill os) (Z.to_nat (k - len (text os v))) ++ text os v)) /\
  (forall st OutStream Separator EndOfLine,
      adjustfield (dest (OutputManager_default st)) = adj_left /\
      adjustfield (dest (OutputManager_stream OutStream st)) = adj_left /\
      adjustfield (dest (OutputManager_strings Separator EndOfLine st)) = adj_left /\
      adjustfield (dest (OutputManager_full OutStream Separator EndOfLine st)) = adj_left).
Proof.
  rewrite dest_SetAlignment, SetAlignment_on_cases.
  split; [reflexivity|]. split; [reflexivity|].
  split; [now intros ->|].
  split.
  { intros H. cbn [adjustfield with_adjust].
    destruct (Z.eqb_spec Alignment 0) as [E|_]; [lia|].
    destruct (Z.gtb_spec Alignment 0); [reflexivity | lia]. }
  split.
  { intros H. cbn [adjustfield with_adjust].
    destruct (Z.eqb_spec Alignment 0) as [E|_]; [lia|].
    destruct (Z.gtb_spec Alignment 0); [lia | reflexivity]. }
  split.
  { intros qs w' Hq H. rewrite (run_adjustfield qs _ _ Hq H).
    now rewrite dest_SetAlignment, SetAlignment_on_cases. }
  split.
  { intros os k v. split; [apply field_internal|].
    split; [apply field_left | apply field_right]. }
  intros st r s e. repeat split; apply construct_left.
Qed.

Lemma SetAlignment_directive_witness :
  0 = 0 /\
  adjustfield (dest (SetAlignment 0 Sample.O)) = adj_internal /\
  -1 < 0 /\
  adjustfield (dest (SetAlignment (-1) Sample.O)) = adj_right.
Proof.
  split; [reflexivity|].
  split; [apply (SetAlignment_directive 0 Sample.O); reflexivity|].
  split; [lia|].
  apply (SetAlignment_directive (-1) Sample.O). lia.
Defined.

(** C9: the stream reference of a manager is the one its constructor was
    given ([std::wcout] when none is), no member function rebinds it, whether
    a print operation or a setter, and so no sequence of calls does; the copy
    constructor and the copy assignment operator are deleted. *)
Theorem OutStream_fixed :
  (forall st OutStream Separator EndOfLine,
      OutStream__ (fst (OutputManager_default st)) = wcout /\
      OutStream__ (fst (OutputManager_stream OutStream st)) = OutStream /\
      OutStream__ (fst (OutputManager_strings Separator EndOfLine st)) = wcout /\
      OutStream__ (fst (OutputManager_full OutStream Separator EndOfLine st)) = OutStream) /\
  (forall q w w', exec q w = Some w' -> OutStream__ (fst w') = OutStream__ (fst w)) /\
  (forall qs w w', run qs w = Some w' -> OutStream__ (fst w') = OutStream__ (fst w)) /\
  (forall f, declared f = deleted).
Proof.
  split; [intros; repeat split|].
  split; [exact exec_OutStream|].
  split; [intros qs w w'; apply run_OutStream|].
  intros []; reflexivity.
Qed.

Lemma OutStream_fixed_witness :
  exists w',
    run [DoSetWidth 5%N; DoSetSeparator ", "; Call [VInt 1; Sample.one_half];
         DoSetAlignment (-1); DoSetPrecision 2%N; DoSetFloatMode 1;
         DoPrintRange (begin_ Sample.Floats) (end_ Sample.Floats);
         DoFormatToColumns (begin_ Sample.Numbers) (end_ Sample.Numbers)
           [begin_ Sample.Words];
         DoFirstNElementsRows 2%N (begin_ Sample.Words) [begin_ Sample.Numbers]]
        (OutputManager_stream 7%nat Sample.fresh_store) = Some w' /\
    OutStream__ (fst w') = 7%nat.
Proof.
  eexists. split; [vm_compute; reflexivity|].
  apply (proj1 (proj2 (proj2 OutStream_fixed))
           [DoSetWidth 5%N; DoSetSeparator ", "; Call [VInt 1; Sample.one_half];
            DoSetAlignment (-1); DoSetPrecision 2%N; DoSetFloatMode 1;
            DoPrintRange (begin_ Sample.Floats) (end_ Sample.Floats);
            DoFormatToColumns (begin_ Sample.Numbers) (end_ Sample.Numbers)
              [begin_ Sample.Words];
            DoFirstNElementsRows 2%N (begin_ Sample.Words) [begin_ Sample.Numbers]]
           (OutputManager_stream 7%nat Sample.fresh_store)).
  vm_compute. reflexivity.
Defined.

(** C5, on the code: a manager on a fresh stream, [SetPrecision(3)], then
    [1.5] printed.  The stream is in its default notation, where the
    precision bounds the significant digits, and one digit follows the
    point; only after [SetFloatMode] with a non-zero mode do three digits
    follow it. *)
Theorem SetPrecision_default_notation :
  option_map (fun w => buffer (dest w))
    (run [DoSetPrecision 3%N; Call [Sample.one_half]] Sample.O)
  = Some (Sample.lines ["1.5"]) /\
  option_map (fun w => buffer (dest w))
    (run [DoSetFloatMode 1; DoSetPrecision 3%N; Call [Sample.one_half]] Sample.O)
  = Some (Sample.lines ["1.500"]) /\
  option_map (fun w => buffer (dest w))
    (run [DoSetFloatMode (-1); DoSetPrecision 3%N; Call [Sample.one_half]] Sample.O)
  = Some (Sample.lines ["1.500e+00"]) /\
  option_map (fun w => buffer (dest w))
    (run [DoSetPrecision 2%N; Call [Sample.flt 314159 (-5)]] Sample.O)
  = Some (Sample.lines ["3.1"]).
Proof. vm_compute. repeat split. Qed.

(* ------------------------------------------------------------------ *)
(** * Runs of requests *)

Module RunFacts.
Import Text TextFacts Num NumFacts Value Stream StreamFacts Iter IterFacts.
Import OM OMFacts DirectiveFacts Runs.

Lemma extends_refl os : extends os os.
Proof. exists "". apply wrote_nothing. Qed.

Lemma extends_buffer os os' : buffer os' = buffer os -> extends os os'.
Proof. intros H. exists "". unfold wrote. now rewrite H, app_nil_r. Qed.

Lemma extends_trans a b c : extends a b -> extends b c -> extends a c.
Proof.
  intros (t & Ht) (u & Hu). exists (t ++ u). unfold wrote in *.
  now rewrite Hu, Ht, app_assoc.
Qed.

Lemma extends_emit t os : extends os (emit t os).
Proof. exists t. apply wrote_emit. Qed.

Lemma call_extends m vs os : extends os (call m vs os).
Proof.
  destruct vs as [|v vs]; [apply extends_emit|].
  rewrite call_emit. apply extends_emit.
Qed.

Lemma PrintRange_loop_extends m : forall fuel Begin End os os',
  PrintRange_loop fuel m Begin End os = Some os' -> extends os os'.
Proof.
  induction fuel as [|fuel IH]; intros b e os os' H; simpl in H;
    destruct (neq b e); try discriminate;
    try (injection H as <-; apply extends_refl).
  unbind H. apply IH in H. rewrite put_element in H.
  eapply extends_trans; [apply extends_emit | exact H].
Qed.

Lemma PrintRange_extends m Begin End os os' :
  PrintRange m Begin End os = Some os' -> extends os os'.
Proof.
  unfold PrintRange. intros H. unbind H. injection H as <-.
  apply PrintRange_loop_extends in Ha.
  eapply extends_trans; [exact Ha | apply extends_emit].
Qed.

Lemma FormatToColumns_loop_extends m : forall fuel Begin End Others os r,
  FormatToColumns_loop fuel m Begin End Others os = Some r -> extends os (snd r).
Proof.
  induction fuel as [|fuel IH]; intros b e Others os r H; simpl in H;
    destruct (neq b e); try discriminate;
    try (injection H as <-; apply extends_refl).
  unbind H. apply IH in H.
  eapply extends_trans; [|exact H].
  exact (call_extends m (a :: a0) os).
Qed.

Lemma FormatToRows_fold_extends m Begin End Others : forall acc os',
  fold_left (fun acc NewBegin => os1 <- acc ;; FormatToRows_each m Begin End os1 NewBegin)
            Others acc = Some os' ->
  exists os0, acc = Some os0 /\ extends os0 os'.
Proof.
  induction Others as [|it Others IH]; intros acc os' H; simpl in H.
  - exists os'. split; [exact H | apply extends_refl].
  - apply IH in H. destruct H as (os2 & H & He). unbind H.
    exists a. split; [assumption|].
    unfold FormatToRows_each in H. unbind H. apply PrintRange_extends in H.
    eapply extends_trans; eassumption.
Qed.

Lemma FormatToRows_extends m Begin End Others os os' :
  FormatToRows m Begin End Others os = Some os' -> extends os os'.
Proof.
  unfold FormatToRows. intros H. unbind H.
  apply FormatToRows_fold_extends in H. destruct H as (os0 & E & He).
  injection E as <-. apply PrintRange_extends in Ha.
  eapply extends_trans; eassumption.
Qed.

Lemma exec_extends q w w' : exec q w = Some w' -> extends (dest w) (dest w').
Proof.
  destruct w as [m st].
  destruct q; simpl; intros H; unbind H; injection H as <-;
    try apply extends_refl;
    try (apply on_stream_opt_Some in Ha; destruct Ha as (os' & Ha & ->);
         unfold dest; simpl; rewrite update_same).
  - rewrite dest_on_stream. apply call_extends.
  - now apply PrintRange_extends in Ha.
  - unfold FormatToColumns in Ha. unbind Ha. injection Ha as <-.
    now apply FormatToColumns_loop_extends in Ha0.
  - now apply FormatToRows_extends in Ha.
  - unfold FirstNElementsRows in Ha. unbind Ha. now apply FormatToRows_extends in Ha.
  - unfold SetAlignment. rewrite dest_on_stream, SetAlignment_on_cases.
    now apply extends_buffer.
  - unfold SetPrecision. rewrite dest_on_stream. now apply extends_buffer.
  - unfold SetFloatMode. rewrite dest_on_stream, SetFloatMode_on_cases.
    now apply extends_buffer.
Qed.

Lemma exec_frame q w w' k :
  exec q w = Some w' -> k <> OutStream__ (fst w) -> snd w' k = snd w k.
Proof.
  destruct w as [m st]. intros H Hk.
  destruct q; simpl in H; unbind H; injection H as <-; try reflexivity;
    try (apply on_stream_opt_Some in Ha; destruct Ha as (os' & _ & ->));
    simpl; unfold on_stream; now apply update_other.
Qed.

Lemma exec_members q w w' : exec q w = Some w' -> fst w' = apply_setter q (fst w).
Proof.
  destruct w as [m st].
  destruct q; simpl; intros H; unbind H; now injection H as <-.
Qed.

(** Only [SetFloatMode] changes the notation of the destination. *)
Lemma exec_floatfield q w w' :
  is_SetFloatMode q = false -> exec q w = Some w' ->
  floatfield (dest w') = floatfield (dest w).
Proof.
  intros Hq H. destruct (is_print q) eqn:Hp.
  - destruct (exec_print q w w' Hp H) as (_ & _ & _ & Ha & _). exact Ha.
  - destruct w as [m st]. destruct q; try discriminate; simpl in H;
      injection H as <-; try reflexivity.
    + unfold SetAlignment. now rewrite !dest_on_stream, SetAlignment_on_cases.
    + unfold SetPrecision. now rewrite !dest_on_stream.
Qed.

Lemma run_floatfield qs : forall w w',
  forallb (fun q => negb (is_SetFloatMode q)) qs = true -> run qs w = Some w' ->
  floatfield (dest w') = floatfield (dest w).
Proof.
  induction qs as [|q qs IH]; simpl; intros w w' Hq H.
  - now injection H as <-.
  - apply andb_prop in Hq. destruct Hq as (Hq & Hqs). unbind H.
    rewrite (IH _ _ Hqs H).
    apply (exec_floatfield q); [now destruct (is_SetFloatMode q) | exact Ha].
Qed.

End RunFacts.

(* ------------------------------------------------------------------ *)
(** * Further properties of the class *)

Import Runs RunFacts.

(** X1: [SetFloatMode(mode)] selects the default notation when [mode] is 0,
    [fixed] when it is positive and [scientific] when it is negative; it
    writes nothing, leaves the members, the alignment and the precision as
    they were, and the notation stays until the next [SetFloatMode]. *)
Theorem SetFloatMode_directive (Mode : Z) (w : world) :
  fst (SetFloatMode Mode w) = fst w /\
  buffer (dest (SetFloatMode Mode w)) = buffer (dest w) /\
  adjustfield (dest (SetFloatMode Mode w)) = adjustfield (dest w) /\
  precision (dest (SetFloatMode Mode w)) = precision (dest w) /\
  (Mode = 0 -> floatfield (dest (SetFloatMode Mode w)) = float_default) /\
  (Mode > 0 -> floatfield (dest (SetFloatMode Mode w)) = float_fixed) /\
  (Mode < 0 -> floatfield (dest (SetFloatMode Mode w)) = float_scientific) /\
  (forall qs w',
      forallb (fun q => negb (is_SetFloatMode q)) qs = true ->
      run qs (SetFloatMode Mode w) = Some w' ->
      floatfield (dest w') = floatfield (dest (SetFloatMode Mode w))).
Proof.
  rewrite dest_SetFloatMode, SetFloatMode_on_cases.
  do 4 (split; [reflexivity|]).
  split; [now intros ->|].
  split.
  { intros H. cbn [floatfield with_float].
    destruct (Z.eqb_spec Mode 0) as [E|_]; [lia|].
    destruct (Z.gtb_spec Mode 0); [reflexivity | lia]. }
  split.
  { intros H. cbn [floatfield with_float].
    destruct (Z.eqb_spec Mode 0) as [E|_]; [lia|].
    destruct (Z.gtb_spec Mode 0); [lia | reflexivity]. }
  intros qs w' Hq H. rewrite (run_floatfield qs _ _ Hq H).
  now rewrite dest_SetFloatMode, SetFloatMode_on_cases.
Qed.

Lemma SetFloatMode_directive_witness :
  -2 < 0 /\
  floatfield (dest (SetFloatMode (-2) Sample.O)) = float_scientific /\
  option_map (fun w => floatfield (dest w))
    (run [Call [Sample.one_half]; DoSetPrecision 2%N; DoSetAlignment 0]
         (SetFloatMode (-2) Sample.O))
  = Some float_scientific.
Proof.
  split; [lia|].
  destruct (SetFloatMode_directive (-2) Sample.O)
    as (_ & _ & _ & _ & _ & _ & Hneg & Hrun).
  split; [apply Hneg; lia|].
  destruct (run [Call [Sample.one_half]; DoSetPrecision 2%N; DoSetAlignment 0]
                (SetFloatMode (-2) Sample.O)) as [w'|] eqn:E;
    [|vm_compute in E; discriminate].
  simpl. f_equal.
  rewrite (Hrun [Call [Sample.one_half]; DoSetPrecision 2%N; DoSetAlignment 0]
             w' eq_refl E).
  apply Hneg. lia.
Defined.

(** X2: output is append-only.  Whatever requests are served, the text the
    destination held before is still there, unchanged, at the front of what
    it holds after; and a request that is not a print request writes
    nothing. *)
Theorem run_append_only (qs : list request) (w w' : world) :
  run qs w = Some w' ->
  (exists t, buffer (dest w') = buffer (dest w) ++ t) /\
  (forallb (fun q => negb (is_print q)) qs = true ->
   buffer (dest w') = buffer (dest w)).
Proof.
  revert w. induction qs as [|q qs IH]; simpl; intros w H.
  - injection H as <-. split; [|reflexivity]. exists "". now rewrite app_nil_r.
  - unbind H. destruct (IH _ H) as (Hext & Hsame). split.
    + apply (extends_trans _ (dest a)); [now apply (exec_extends q) | exact Hext].
    + intros Hq. apply andb_prop in Hq. destruct Hq as (Hq & Hqs).
      rewrite (Hsame Hqs). destruct w as [m st].
      destruct q; try discriminate; simpl in Ha; injection Ha as <-; try reflexivity.
      * unfold SetAlignment. now rewrite !dest_on_stream, SetAlignment_on_cases.
      * unfold SetPrecision. now rewrite !dest_on_stream.
      * unfold SetFloatMode. now rewrite !dest_on_stream, SetFloatMode_on_cases.
Qed.

Lemma run_append_only_witness :
  forallb (fun q => negb (is_print q)) [DoSetWidth 4%N; DoSetAlignment (-1)] = true /\
  option_map (fun w => buffer (dest w))
    (run [DoSetWidth 4%N; DoSetAlignment (-1)] Sample.O)
  = Some (buffer (dest Sample.O)).
Proof.
  split; [reflexivity|].
  destruct (run [DoSetWidth 4%N; DoSetAlignment (-1)] Sample.O) as [w'|] eqn:E;
    [|discriminate].
  simpl. f_equal.
  apply (proj2 (run_append_only [DoSetWidth 4%N; DoSetAlignment (-1)] Sample.O w' E)).
  reflexivity.
Defined.

(** X3: the members [Separator__], [EndOfLine__] and [Width__] are changed
    by their own setters and by nothing else: after any requests the manager
    is the one the setters among them produce, applied in order, so a later
    setter overrides an earlier one and printing changes no member. *)
Theorem run_members (qs : list request) (w w' : world) :
  run qs w = Some w' -> fst w' = settings qs (fst w).
Proof.
  revert w. induction qs as [|q qs IH]; simpl; intros w H.
  - now injection H as <-.
  - unbind H. rewrite (IH _ H). unfold settings. simpl.
    now rewrite (exec_members q w a Ha).
Qed.

Lemma run_members_witness :
  option_map (fun w => Separator__ (fst w))
    (run [DoSetSeparator ", "; Call [VInt 1; VInt 2]; DoSetSeparator "; ";
          DoSetAlignment 0; DoSetWidth 3%N] Sample.O)
  = Some "; ".
Proof.
  destruct (run [DoSetSeparator ", "; Call [VInt 1; VInt 2]; DoSetSeparator "; ";
                 DoSetAlignment 0; DoSetWidth 3%N] Sample.O) as [w'|] eqn:E;
    [|vm_compute in E; discriminate].
  simpl. f_equal.
  rewrite (run_members
             [DoSetSeparator ", "; Call [VInt 1; VInt 2]; DoSetSeparator "; ";
              DoSetAlignment 0; DoSetWidth 3%N] Sample.O w' E).
  reflexivity.
Defined.

(** X4: a manager touches one stream only.  Every stream other than the
    one [OutStream__] refers to is, after any requests, exactly as it was. *)
Theorem run_frame (qs : list request) (w w' : world) (k : stream_ref) :
  run qs w = Some w' -> k <> OutStream__ (fst w) -> snd w' k = snd w k.
Proof.
  revert w. induction qs as [|q qs IH]; simpl; intros w H Hk.
  - now injection H as <-.
  - unbind H. rewrite (IH _ H).
    + now apply (exec_frame q).
    + now rewrite (exec_OutStream q w a Ha).
Qed.

Lemma run_frame_witness :
  3%nat <> OutStream__ (fst (OutputManager_stream 7%nat Sample.fresh_store)) /\
  option_map (fun w => snd w 3%nat)
    (run [DoSetAlignment (-1); DoSetPrecision 2%N; Call [Sample.one_half]]
         (OutputManager_stream 7%nat Sample.fresh_store))
  = Some fresh.
Proof.
  assert (Hk : 3%nat <> OutStream__ (fst (OutputManager_stream 7%nat Sample.fresh_store)))
    by (simpl; lia).
  split; [exact Hk|].
  destruct (run [DoSetAlignment (-1); DoSetPrecision 2%N; Call [Sample.one_half]]
                (OutputManager_stream 7%nat Sample.fresh_store)) as [w'|] eqn:E;
    [|vm_compute in E; discriminate].
  cbn [option_map]. apply f_equal.
  exact (run_frame [DoSetAlignment (-1); DoSetPrecision 2%N; Call [Sample.one_half]]
           (OutputManager_stream 7%nat Sample.fresh_store) w' 3%nat E Hk).
Defined.

(** X5: constructing a manager sets the alignment of its stream to [left]
    for every user of that stream: a manager that had chosen another
    alignment on the same stream finds it left-aligned afterwards, with the
    text written, the notation and the precision untouched; a manager on
    another stream is not affected. *)
Theorem construct_resets_shared_alignment (w : world) (r : stream_ref)
    (Separator EndOfLine : string) :
  (r = OutStream__ (fst w) ->
   adjustfield (dest (fst w, snd (construct r Separator EndOfLine (snd w)))) = adj_left /\
   buffer (dest (fst w, snd (construct r Separator EndOfLine (snd w)))) = buffer (dest w) /\
   floatfield (dest (fst w, snd (construct r Separator EndOfLine (snd w))))
   = floatfield (dest w) /\
   precision (dest (fst w, snd (construct r Separator EndOfLine (snd w))))
   = precision (dest w)) /\
  (r <> OutStream__ (fst w) ->
   dest (fst w, snd (construct r Separator EndOfLine (snd w))) = dest w).
Proof.
  destruct w as [m st]. unfold construct, SetAlignment, dest, on_stream. simpl. split.
  - intros ->. rewrite update_same. repeat split.
  - intros H. apply update_other. congruence.
Qed.

Lemma construct_resets_shared_alignment_witness :
  wcout = OutStream__ (fst (SetAlignment (-1) Sample.O)) /\
  adjustfield (dest (SetAlignment (-1) Sample.O)) = adj_right /\
  adjustfield
    (dest (fst (SetAlignment (-1) Sample.O),
           snd (construct wcout ", " newline (snd (SetAlignment (-1) Sample.O)))))
  = adj_left.
Proof.
  split; [reflexivity|]. split; [reflexivity|].
  apply (proj1 (construct_resets_shared_alignment
                  (SetAlignment (-1) Sample.O) wcout ", " newline)).
  reflexivity.
Defined.

(** X9: no [std::setw] of the class outlives the call that issued it.  After
    [operator()], [PrintRange], [FormatToRows] or [FirstNElementsRows] the
    destination has no field width pending, whatever it had before; and a
    destination with none pending has none after any requests. *)
Theorem no_width_left_pending (w : world) :
  (forall q w', ends_a_line q = true -> exec q w = Some w' -> width (dest w') = 0) /\
  (forall qs w', width (dest w) = 0 -> run qs w = Some w' -> width (dest w') = 0).
Proof.
  split.
  - destruct w as [m st]. intros q w' Hq H.
    destruct q; try discriminate; simpl in H; unbind H; injection H as <-;
      try (apply on_stream_opt_Some in Ha; destruct Ha as (os' & Ha & ->);
           unfold dest; simpl; rewrite update_same).
    + rewrite dest_on_stream. apply call_idle.
    + now apply PrintRange_idle in Ha.
    + now apply FormatToRows_idle in Ha.
    + unfold FirstNElementsRows in Ha. unbind Ha. now apply FormatToRows_idle in Ha.
  - intros qs w'. apply run_idle.
Qed.

Lemma no_width_left_pending_witness :
  ends_a_line (Call []) = true /\
  width (dest Sample.O_armed) = 3 /\
  option_map (fun w => width (dest w)) (exec (Call []) Sample.O_armed) = Some 0.
Proof.
  split; [reflexivity|]. split; [reflexivity|].
  destruct (exec (Call []) Sample.O_armed) as [w'|] eqn:E; [|discriminate].
  simpl. f_equal.
  apply (proj1 (no_width_left_pending Sample.O_armed) (Call []) w' eq_refl E).
Defined.

Module LineFacts.
Import Text TextFacts Num NumFacts Value Stream StreamFacts Iter IterFacts.
Import OM OMFacts WidthFacts DirectiveFacts Runs.

(** *** Separators after and between *)

Lemma cat_sep_concat (f : value -> string) (sep : string) (vs : list value) : forall v,
  cat (map (fun x => f x ++ sep) (v :: vs)) = String.concat sep (map f (v :: vs)) ++ sep.
Proof.
  induction vs as [|u vs IH]; intros v.
  - simpl. now rewrite app_nil_r.
  - change (cat (map (fun x => f x ++ sep) (v :: u :: vs)))
      with ((f v ++ sep) ++ cat (map (fun x => f x ++ sep) (u :: vs))).
    change (String.concat sep (map f (v :: u :: vs)))
      with (f v ++ sep ++ String.concat sep (map f (u :: vs))).
    now rewrite IH, !app_assoc.
Qed.


(** *** Tables split by rows *)

Lemma skipn_nil' {A} n : skipn n (@nil A) = [].
Proof. now destruct n. Qed.

Lemma skipn_S_tl' {A} n (l : list A) : skipn (S n) l = skipn n (tl l).
Proof. destruct l; [cbn [tl]; now rewrite !skipn_nil' | reflexivity]. Qed.

Lemma rows_app (l1 : list value) : forall l2 others,
  rows (l1 ++ l2)%list others
  = (rows l1 others ++ rows l2 (map (skipn (List.length l1)) others))%list.
Proof.
  induction l1 as [|x l1 IH]; intros l2 others.
  - simpl. f_equal. rewrite <- (map_id others) at 1. now apply map_ext.
  - change ((x :: l1) ++ l2)%list with (x :: (l1 ++ l2))%list.
    rewrite !rows_cons, IH, map_map. cbn [List.length app]. do 3 f_equal.
    apply map_ext. intros o. symmetry. apply skipn_S_tl'.
Qed.

Lemma firstn_plus {A} (l : list A) : forall a b,
  firstn (a + b) l = (firstn a l ++ firstn b (skipn a l))%list.
Proof.
  induction l as [|x l IH]; intros [|a] b; simpl; try reflexivity.
  - now rewrite firstn_nil.
  - now rewrite IH.
Qed.

Lemma emit_lines_app a b os : emit_lines (a ++ b)%list os = emit_lines b (emit_lines a os).
Proof. unfold emit_lines. apply fold_left_app. Qed.

(** *** The width the stream is told *)

Lemma to_int_period z : to_int (z + 4294967296) = to_int z.
Proof.
  unfold to_int. f_equal.
  replace (z + 4294967296 + 2147483648) with (z + 2147483648 + 1 * 4294967296) by lia.
  apply Z.mod_add. lia.
Qed.

Lemma to_int_upper_half z :
  INT_MAX < z < 4294967296 -> to_int z = z - 4294967296.
Proof.
  unfold to_int, INT_MAX. intros H.
  replace (z + 2147483648) with (z - 2147483648 + 1 * 4294967296) by lia.
  rewrite Z.mod_add by lia. rewrite Z.mod_small by lia. lia.
Qed.

(** The manager's width reaches a print only through its conversion. *)
Lemma call_same_settings m1 m2 vs os :
  Separator__ m1 = Separator__ m2 -> EndOfLine__ m1 = EndOfLine__ m2 ->
  int_of_size_t (Width__ m1) = int_of_size_t (Width__ m2) ->
  call m1 vs os = call m2 vs os.
Proof.
  intros Hs He Hw. destruct vs as [|v vs].
  - unfold call, call_void. now rewrite He.
  - rewrite !call_emit. unfold joined_line. now rewrite Hs, He, Hw.
Qed.

(** *** Digits *)

Lemma all_digits_app a b : all_digits (a ++ b) = all_digits a && all_digits b.
Proof.
  induction a as [|c a IH]; simpl; [reflexivity|]. now rewrite IH, andb_assoc.
Qed.

Lemma all_digits_replicate0 n : all_digits (replicate "0"%char n) = true.
Proof. induction n as [|n IH]; simpl; [reflexivity | exact IH]. Qed.

Lemma all_digits_substring s : forall i k,
  all_digits s = true -> all_digits (substring i k s) = true.
Proof.
  induction s as [|c s IH]; intros i k H.
  - destruct i, k; reflexivity.
  - simpl in H. apply andb_prop in H. destruct H as (Hc & Hs).
    destruct i as [|i]; simpl.
    + destruct k as [|k]; simpl; [reflexivity|]. now rewrite Hc, IH.
    + now apply IH.
Qed.

Lemma all_digits_uint u : all_digits (NilEmpty.string_of_uint u) = true.
Proof. induction u; simpl; auto. Qed.

Lemma all_digits_digits n : all_digits (digits n) = true.
Proof.
  unfold digits, NilZero.string_of_uint.
  destruct (N.to_uint (Z.to_N n)) eqn:E; try reflexivity;
    rewrite <- E; apply all_digits_uint.
Qed.

Lemma all_digits_lpad0 k s : all_digits s = true -> all_digits (lpad0 k s) = true.
Proof.
  intros H. unfold lpad0. now rewrite all_digits_app, all_digits_replicate0, H.
Qed.

(** The text of a floating value in fixed notation: digits, a point, and as
    many digits as the precision says. *)
Lemma fixed_text_shape os d :
  floatfield os = float_fixed -> 0 < precision os ->
  exists ip fp,
    float_body os d = ip ++ "." ++ fp /\
    all_digits ip = true /\ all_digits fp = true /\ len fp = precision os.
Proof.
  intros Hf Hp. unfold float_body, float_precision. rewrite Hf.
  replace (precision os <? 0) with false by (symmetry; apply Z.ltb_ge; lia).
  set (p := precision os) in *. set (m := Z.of_N (mant d)).
  set (ds := lpad0 (p + 1) (digits (scaled m (exp10 d) p))).
  assert (Hd : all_digits ds = true) by apply all_digits_lpad0, all_digits_digits.
  assert (Hl : p + 1 <= len ds).
  { subst ds. rewrite lpad0_len. lia. }
  set (n := String.length ds) in *. set (k := Z.to_nat p).
  exists (substring 0 (n - k) ds), (substring (n - k) k ds).
  assert (L : len (substring (n - k) k ds) = p).
  { unfold len in Hl |- *. rewrite substring_length by (fold n; lia). lia. }
  split; [|split; [|split]].
  - unfold conv_fixed, assemble. fold ds. fold n. fold k.
    cbn [int_part frac_part suffix].
    destruct (substring (n - k) k ds) as [|c r] eqn:E.
    + unfold len in L. simpl in L. lia.
    + now rewrite app_nil_r.
  - now apply all_digits_substring.
  - now apply all_digits_substring.
  - exact L.
Qed.

End LineFacts.

Import LineFacts.

(** X6: with the members the constructors give (width 0 and, when no
    strings are passed, a single space and a newline) a print writes the
    plain texts of its arguments, unpadded whatever the stream held as
    width, joined by the separator and closed by the end-of-line string. *)
Theorem constructed_manager_line (st : store) (OutStream : stream_ref)
    (Separator EndOfLine : string) (v : value) (vs : list value) :
  wrote (dest (OutputManager_full OutStream Separator EndOfLine st))
        (call (fst (OutputManager_full OutStream Separator EndOfLine st)) (v :: vs)
              (dest (OutputManager_full OutStream Separator EndOfLine st)))
        (String.concat Separator
           (map (text (dest (OutputManager_full OutStream Separator EndOfLine st)))
                (v :: vs))
         ++ EndOfLine) /\
  wrote (dest (OutputManager_default st))
        (call (fst (OutputManager_default st)) (v :: vs) (dest (OutputManager_default st)))
        (String.concat " " (map (text (dest (OutputManager_default st))) (v :: vs))
         ++ newline) /\
  fst (OutputManager_stream OutStream st) = Manager OutStream " " newline 0%N /\
  fst (OutputManager_strings Separator EndOfLine st) = Manager wcout Separator EndOfLine 0%N.
Proof.
  assert (G : forall r s e,
             wrote (dest (construct r s e st))
               (call (fst (construct r s e st)) (v :: vs) (dest (construct r s e st)))
               (String.concat s (map (text (dest (construct r s e st))) (v :: vs)) ++ e)).
  { intros r s e. rewrite call_emit, construct_members. unfold wrote, joined_line.
    rewrite buffer_emit. cbn [Separator__ EndOfLine__ Width__].
    change (int_of_size_t 0%N) with 0. do 3 f_equal.
    apply map_ext. intros x. apply field_0. lia. }
  split; [apply G|]. split; [apply (G wcout space newline)|].
  split; reflexivity.
Qed.

(** X7: [PrintRange] over a non-empty range writes what the variadic print
    writes for the same elements once the end-of-line string is replaced by
    the separator followed by the end-of-line string: the two differ by the
    separator after the last element and by nothing else. *)
Theorem PrintRange_as_call (m : OutputManager) (Begin End : iterator) (os : ostream) :
  valid_range Begin End ->
  elements Begin End <> [] ->
  PrintRange m Begin End os
  = Some (call (SetEndOfLine (Separator__ m ++ EndOfLine__ m) m) (elements Begin End) os).
Proof.
  intros Hr Hne. rewrite (PrintRange_emit _ _ _ _ Hr).
  destruct (elements Begin End) as [|v vs]; [congruence|].
  rewrite call_emit. do 2 f_equal.
  unfold range_text, range_line, joined_line.
  cbn [Separator__ EndOfLine__ Width__ SetEndOfLine].
  now rewrite cat_sep_concat, app_assoc.
Qed.

Lemma PrintRange_as_call_witness :
  valid_range (begin_ Sample.Words) (end_ Sample.Words) /\
  elements (begin_ Sample.Words) (end_ Sample.Words) <> [] /\
  PrintRange Sample.O5 (begin_ Sample.Words) (end_ Sample.Words) (dest Sample.O)
  = Some (call (SetEndOfLine (" " ++ newline) Sample.O5) Sample.Words (dest Sample.O)).
Proof.
  assert (Hne : elements (begin_ Sample.Words) (end_ Sample.Words) <> [])
    by (rewrite elements_begin_end; discriminate).
  split; [apply valid_range_begin_end|]. split; [exact Hne|].
  rewrite (PrintRange_as_call Sample.O5 (begin_ Sample.Words) (end_ Sample.Words)
             (dest Sample.O) (valid_range_begin_end Sample.Words) Hne).
  now rewrite elements_begin_end.
Defined.

(** X8: [FormatToColumns] can be cut at any row.  Formatting the first [k]
    rows and then the rest, with the other iterators moved [k] places on,
    writes the same as formatting the whole range at once. *)
Theorem FormatToColumns_split (m : OutputManager) (Begin End : iterator)
    (Others : list iterator) (os : ostream) (k : nat) :
  valid_range Begin End ->
  Forall (room (pos End - pos Begin)) Others ->
  (k <= pos End - pos Begin)%nat ->
  FormatToColumns m Begin End Others os
  = (os1 <- FormatToColumns m Begin (shift k Begin) Others os ;;
     FormatToColumns m (shift k Begin) End (map (shift k) Others) os1).
Proof.
  intros Hr HO Hk. pose proof Hr as (Hs & H1 & H2).
  set (n := (pos End - pos Begin)%nat) in *.
  assert (HrB : room k Begin) by (unfold room; lia).
  assert (Hr1 : valid_range Begin (shift k Begin)) by now apply valid_range_shift.
  assert (Hr2 : valid_range (shift k Begin) End).
  { unfold valid_range, shift. simpl. split; [exact Hs | lia]. }
  assert (Hd1 : (pos (shift k Begin) - pos Begin)%nat = k) by (unfold shift; simpl; lia).
  assert (Hd2 : (pos End - pos (shift k Begin))%nat = (n - k)%nat)
    by (unfold shift; simpl; lia).
  rewrite (FormatToColumns_lines m Begin End Others os Hr HO).
  rewrite (FormatToColumns_lines m Begin (shift k Begin) Others os Hr1)
    by (rewrite Hd1; apply (Forall_room_weaken n); assumption).
  cbn [bind].
  rewrite (FormatToColumns_lines m (shift k Begin) End (map (shift k) Others) _ Hr2)
    by (rewrite Hd2; apply Forall_room_shift;
        replace (k + (n - k))%nat with n by lia; exact HO).
  f_equal.
  assert (He : elements Begin End
               = (elements Begin (shift k Begin) ++ elements (shift k Begin) End)%list).
  { unfold elements. fold n. rewrite Hd1, Hd2, remaining_shift.
    replace n with (k + (n - k))%nat at 1 by lia. apply firstn_plus. }
  rewrite He, rows_app, map_app, emit_lines_app.
  rewrite (length_elements _ _ Hr1), Hd1.
  assert (HR : map remaining (map (shift k) Others)
               = map (skipn k) (map remaining Others)).
  { rewrite !map_map. apply map_ext. intros it. apply remaining_shift. }
  rewrite HR. f_equal. apply map_ext. intros vs. symmetry.
  apply joined_line_same, emit_lines_same_format.
Qed.

Lemma FormatToColumns_split_witness :
  valid_range (begin_ Sample.Numbers) (end_ Sample.Numbers) /\
  Forall (room 5) [begin_ Sample.Floats; begin_ Sample.Words] /\
  (2 <= 5)%nat /\
  option_map buffer
    (os1 <- FormatToColumns (fst Sample.O) (begin_ Sample.Numbers)
              (shift 2 (begin_ Sample.Numbers))
              [begin_ Sample.Floats; begin_ Sample.Words] (dest Sample.O) ;;
     FormatToColumns (fst Sample.O) (shift 2 (begin_ Sample.Numbers)) (end_ Sample.Numbers)
       (map (shift 2) [begin_ Sample.Floats; begin_ Sample.Words]) os1)
  = option_map buffer
      (FormatToColumns (fst Sample.O) (begin_ Sample.Numbers) (end_ Sample.Numbers)
         [begin_ Sample.Floats; begin_ Sample.Words] (dest Sample.O)).
Proof.
  assert (HO : Forall (room 5) [begin_ Sample.Floats; begin_ Sample.Words]).
  { repeat constructor. }
  split; [apply valid_range_begin_end|]. split; [exact HO|]. split; [lia|].
  now rewrite (FormatToColumns_split (fst Sample.O) (begin_ Sample.Numbers)
                 (end_ Sample.Numbers) [begin_ Sample.Floats; begin_ Sample.Words]
                 (dest Sample.O) 2 (valid_range_begin_end Sample.Numbers) HO
                 ltac:(simpl; lia)).
Defined.

(** X10: in fixed notation the precision is the number of decimals.  After
    [SetFloatMode] with a positive mode and [SetPrecision(n)], in either
    order, with [0 < n <= 2147483647], the text of every finite floating
    value is its sign, digits, a point and exactly [n] digits.  (Infinities
    and NaN, which a stream writes as [inf] and [nan], are not values of
    [decimal].) *)
Theorem fixed_precision_decimals (Mode : Z) (Precision : size_t) (w : world) (d : decimal) :
  Mode > 0 ->
  0 < Z.of_N Precision <= INT_MAX ->
  forall os,
    os = dest (SetPrecision Precision (SetFloatMode Mode w)) \/
    os = dest (SetFloatMode Mode (SetPrecision Precision w)) ->
    exists ip fp,
      text os (VFloat d) = (if neg d then "-" else "") ++ ip ++ "." ++ fp /\
      all_digits ip = true /\ all_digits fp = true /\
      len fp = Z.of_N Precision.
Proof.
  intros Hm Hp os Hos.
  assert (Hf : floatfield os = float_fixed /\ precision os = Z.of_N Precision).
  { destruct Hos as [-> | ->];
      rewrite ?dest_SetPrecision, ?dest_SetFloatMode, ?SetFloatMode_on_cases;
      unfold SetPrecision_on, setprecision; cbn [floatfield precision with_float with_precision];
      rewrite ?dest_SetPrecision, ?dest_SetFloatMode, ?SetFloatMode_on_cases;
      unfold SetPrecision_on, setprecision; cbn [floatfield precision with_float with_precision];
      (split; [| apply int_of_size_t_small; lia]);
      destruct (Z.eqb_spec Mode 0); try lia;
      destruct (Z.gtb_spec Mode 0); try lia; reflexivity. }
  destruct Hf as (Hf & Hprec).
  destruct (fixed_text_shape os d Hf ltac:(lia)) as (ip & fp & Hb & Hi & Hfp & Hl).
  exists ip, fp. unfold text. cbn [render fst snd]. rewrite Hb, <- Hprec.
  repeat split; assumption.
Qed.

Lemma fixed_precision_decimals_witness :
  1 > 0 /\ 0 < Z.of_N 3 <= INT_MAX /\
  exists ip fp,
    text (dest (SetPrecision 3%N (SetFloatMode 1 Sample.O))) (VFloat (Decimal true 15 (-1)))
    = "-" ++ ip ++ "." ++ fp /\
    all_digits ip = true /\ all_digits fp = true /\ len fp = 3.
Proof.
  split; [lia|]. split; [unfold INT_MAX; simpl; lia|].
  apply (fixed_precision_decimals 1 3%N Sample.O (Decimal true 15 (-1))
           ltac:(lia) ltac:(unfold INT_MAX; simpl; lia)
           (dest (SetPrecision 3%N (SetFloatMode 1 Sample.O))) (or_introl eq_refl)).
Defined.

(** X11: the width a print applies is the width of the manager converted to
    [int].  Adding 2^32 to the width changes nothing in what is printed, and
    a width above [INT_MAX] and below 2^32 pads nothing at all: the texts
    are written as they are, joined by the separator. *)
Theorem width_wraps_at_int (m : OutputManager) (Width : size_t) (vs : list value)
    (os : ostream) :
  call (SetWidth (Width + 4294967296)%N m) vs os = call (SetWidth Width m) vs os /\
  (INT_MAX < Z.of_N Width < 4294967296 ->
   forall v,
     wrote os (call (SetWidth Width m) (v :: vs) os)
       (String.concat (Separator__ m) (map (text os) (v :: vs)) ++ EndOfLine__ m)).
Proof.
  split.
  - apply call_same_settings; try reflexivity.
    cbn [Width__ SetWidth]. unfold int_of_size_t.
    rewrite N2Z.inj_add. apply to_int_period.
  - intros H v. rewrite call_emit. unfold wrote, joined_line.
    rewrite buffer_emit. cbn [Width__ SetWidth Separator__ EndOfLine__].
    do 3 f_equal. apply map_ext. intros x. apply field_0.
    unfold int_of_size_t. rewrite to_int_upper_half by exact H. lia.
Qed.

Lemma width_wraps_at_int_witness :
  INT_MAX < Z.of_N 4294967295 < 4294967296 /\
  buffer (call (SetWidth 4294967295%N (fst Sample.O)) [VInt 1; Sample.a] (dest Sample.O))
  = Sample.lines ["1 a"].
Proof.
  split; [unfold INT_MAX; simpl; lia|].
  pose proof (proj2 (width_wraps_at_int (fst Sample.O) 4294967295%N [Sample.a] (dest Sample.O))
                ltac:(unfold INT_MAX; simpl; lia) (VInt 1)) as H.
  unfold wrote in H. rewrite H. reflexivity.
Defined.



(** X14: [SetPrecision(n)] stores [n], converted to [int], as the precision
    of the destination ([n] itself when it is at most 2147483647); it writes
    nothing, leaves the members, the alignment and the notation as they
    were, and the precision stays until the next [SetPrecision]. *)
Theorem SetPrecision_directive (Precision : size_t) (w : world) :
  fst (SetPrecision Precision w) = fst w /\
  buffer (dest (SetPrecision Precision w)) = buffer (dest w) /\
  adjustfield (dest (SetPrecision Precision w)) = adjustfield (dest w) /\
  floatfield (dest (SetPrecision Precision w)) = floatfield (dest w) /\
  precision (dest (SetPrecision Precision w)) = int_of_size_t Precision /\
  (Z.of_N Precision <= INT_MAX ->
   precision (dest (SetPrecision Precision w)) = Z.of_N Precision) /\
  (forall qs w',
      forallb (fun q => negb (is_SetPrecision q)) qs = true ->
      run qs (SetPrecision Precision w) = Some w' ->
      precision (dest w') = int_of_size_t Precision).
Proof.
  rewrite dest_SetPrecision.
  do 5 (split; [reflexivity|]).
  split.
  - intros H. cbn [SetPrecision_on setprecision precision with_precision].
    now apply int_of_size_t_small.
  - intros qs w' Hq H. now apply (SetPrecision_persists Precision w qs).
Qed.

Lemma SetPrecision_directive_witness :
  Z.of_N 4 <= INT_MAX /\
  precision (dest (SetPrecision 4%N Sample.O)) = 4 /\
  option_map (fun w => precision (dest w))
    (run [Call [Sample.one_half]; DoSetFloatMode 1; DoSetWidth 9%N]
         (SetPrecision 4%N Sample.O))
  = Some 4.
Proof.
  split; [unfold INT_MAX; simpl; lia|].
  destruct (SetPrecision_directive 4%N Sample.O) as (_ & _ & _ & _ & _ & Hp & Hrun).
  split; [apply Hp; unfold INT_MAX; simpl; lia|].
  destruct (run [Call [Sample.one_half]; DoSetFloatMode 1; DoSetWidth 9%N]
                (SetPrecision 4%N Sample.O)) as [w'|] eqn:E;
    [|vm_compute in E; discriminate].
  cbn [option_map]. apply f_equal.
  exact (Hrun [Call [Sample.one_half]; DoSetFloatMode 1; DoSetWidth 9%N] w' eq_refl E).
Defined.
